(** * JWK key model of jwcrypto (src/jwcrypto/jwk.py)

    A shallow embedding of the [JWK] class: field classification at
    construction, the usage/operation constraint checker, the integer
    decoding primitive and the type-dispatched material resolver.

    Python dictionaries held by a key ([_params], [_key], [_unknown]) are
    finite maps; the keyword arguments of the constructor are an association
    list in the dictionary's iteration order, since the constructor iterates
    over their names while it mutates the list of names.  Exceptions are the
    [Raise] branch of a result type. *)

From Stdlib Require Import String Ascii ZArith NArith List Lia.
From Stdlib.Strings Require Import Byte.
From stdpp Require Import base decidable option list gmap strings fin_maps.

Local Open Scope string_scope.
Set Warnings "-clear-no-such-hyp".

(** ** Values

    Field values as the key model knows them: a string, or an ordered
    sequence of strings for the multi-valued fields ([key_ops], [x5c]). *)

Inductive Value : Type :=
| VStr (s : string)
| VList (l : list string).

#[global] Instance Value_eq_dec : EqDecision Value.
Proof. solve_decision. Defined.

(** Python truthiness: the empty string and the empty list are false. *)
Definition truthy (v : Value) : bool :=
  match v with
  | VStr s => negb (bool_decide (s = ""))
  | VList l => negb (bool_decide (l = []))
  end.

(** Iterating over a value: a list yields its elements, a string yields its
    characters as one-character strings. *)
Fixpoint chars (s : string) : list string :=
  match s with
  | EmptyString => []
  | String c s' => String c EmptyString :: chars s'
  end.

Definition iter_value (v : Value) : list string :=
  match v with
  | VStr s => chars s
  | VList l => l
  end.

(** [s1 in s2] on strings is the substring test. *)
Fixpoint is_substring (s1 s2 : string) : bool :=
  String.prefix s1 s2 ||
  match s2 with
  | EmptyString => false
  | String _ s2' => is_substring s1 s2'
  end.

(** [op in v]: membership in a list, substring test in a string. *)
Definition value_contains (op : string) (v : Value) : bool :=
  match v with
  | VStr s => is_substring op s
  | VList l => bool_decide (op ∈ l)
  end.

(** ** Exceptions *)

(** The messages carried by [InvalidJWKValue]. *)
Inductive ValueMsg : Type :=
| UnknownKeyParameters (names : list string)
| NoKeyValuesFound
| DuplicateKeyOps
| IncompatibleUseKeyOps
| CurveMismatch (requested : string) (crv : Value)
| UnknownCurveType.

Inductive exn : Type :=
| InvalidJWKType (value : option Value)
| InvalidJWKUsage (use : string) (value : Value)
| InvalidJWKOperation (operation : option string) (values : list Value)
| InvalidJWKValue (msg : ValueMsg)
| KeyError (key : string)
| TypeError
| ValueError
| NotImplementedError.

(** The error kind of an exception is its class. *)
Inductive kind : Type :=
| KInvalidKeyType | KInvalidUsage | KInvalidOperation | KInvalidKeyValue
| KKeyError | KTypeError | KValueError | KNotImplemented.

Definition kind_of (e : exn) : kind :=
  match e with
  | InvalidJWKType _ => KInvalidKeyType
  | InvalidJWKUsage _ _ => KInvalidUsage
  | InvalidJWKOperation _ _ => KInvalidOperation
  | InvalidJWKValue _ => KInvalidKeyValue
  | KeyError _ => KKeyError
  | TypeError => KTypeError
  | ValueError => KValueError
  | NotImplementedError => KNotImplemented
  end.

Inductive result (A : Type) : Type :=
| Ok (a : A)
| Raise (e : exn).

Arguments Ok {A} a.
Arguments Raise {A} e.

Definition bind {A B : Type} (m : result A) (k : A -> result B) : result B :=
  match m with
  | Ok a => k a
  | Raise e => Raise e
  end.

Notation "'let*' x ':=' m 'in' k" := (bind m (fun x => k))
  (at level 10, x name, m at level 100, k at level 200).

(** [fails_with m k]: the call raised an exception of kind [k]. *)
Definition fails_with {A : Type} (m : result A) (k : kind) : Prop :=
  exists e, m = Raise e /\ kind_of e = k.

(** ** Registries *)

Inductive visibility : Type := Public | Private.

Definition JWKTypesRegistry : list (string * string) :=
  [("EC", "Elliptic Curve");
   ("RSA", "RSA");
   ("oct", "Octet sequence")].

Definition JWKValuesRegistry
  : list (string * list (string * (string * visibility))) :=
  [("EC", [("crv", ("Curve", Public));
           ("x", ("X Coordinate", Public));
           ("y", ("Y Coordinate", Public));
           ("d", ("ECC Private Key", Private))]);
   ("RSA", [("n", ("Modulus", Public));
            ("e", ("Exponent", Public));
            ("d", ("Private Exponent", Private));
            ("p", ("First Prime Factor", Private));
            ("q", ("Second Prime Factor", Private));
            ("dp", ("First Factor CRT Exponent", Private));
            ("dq", ("Second Factor CRT Exponent", Private));
            ("qi", ("First CRT Coefficient", Private))]);
   ("oct", [("k", ("Key Value", Private))])].

Definition JWKParamsRegistry : list (string * (string * visibility)) :=
  [("kty", ("Key Type", Public));
   ("use", ("Public Key Use", Public));
   ("key_ops", ("Key Operations", Public));
   ("alg", ("Algorithm", Public));
   ("kid", ("Key ID", Public));
   ("x5u", ("X.509 URL", Public));
   ("x5c", ("X.509 Certificate Chain", Public));
   ("x5t", ("X.509 Certificate SHA-1 Thumbprint", Public));
   ("x5t#S256", ("X.509 Certificate SHA-256 Thumbprint", Public))].

Definition JWKEllipticCurveRegistry : list (string * string) :=
  [("P-256", "P-256 curve");
   ("P-384", "P-384 curve");
   ("P-521", "P-521 curve")].

Definition JWKUseRegistry : list (string * string) :=
  [("sig", "Digital Signature or MAC");
   ("enc", "Encryption")].

Definition JWKOperationsRegistry : list (string * string) :=
  [("sign", "Compute digital Signature or MAC");
   ("verify", "Verify digital signature or MAC");
   ("encrypt", "Encrypt content");
   ("decrypt", "Decrypt content and validate decryption, if applicable");
   ("wrapKey", "Encrypt key");
   ("unwrapKey", "Decrypt key and validate decryption, if applicable");
   ("deriveKey", "Derive key");
   ("deriveBits", "Derive bits not to be used as a key")].

(** ** Dictionary primitives *)

(** [d.keys()], [d.get(name)] and [name in d] on an ordered dictionary. *)
Definition keys {V : Type} (d : list (string * V)) : list string := map fst d.

Fixpoint assoc_get {V : Type} (name : string) (d : list (string * V))
  : option V :=
  match d with
  | [] => None
  | (n, v) :: d' => if decide (n = name) then Some v else assoc_get name d'
  end.

(** [d[name]] on a finite map raises [KeyError] when [name] is absent. *)
Definition getitem (d : gmap string Value) (name : string) : result Value :=
  match d !! name with
  | Some v => Ok v
  | None => Raise (KeyError name)
  end.

(** [d.update(other)]: the bindings of [other] override those of [d]. *)
Definition dict_update (d other : gmap string Value) : gmap string Value :=
  other ∪ d.

(** [while name in names: names.remove(name)] deletes every occurrence. *)
Fixpoint remove_all (name : string) (names : list string) : list string :=
  match names with
  | [] => []
  | x :: names' =>
      if decide (x = name) then remove_all name names'
      else x :: remove_all name names'
  end.

(** ** The key entity and its construction *)

Record JWK : Type := mkJWK {
  _params : gmap string Value;
  _key : gmap string Value;
  _unknown : gmap string Value
}.

(** One iteration of the loops over a registry's names: a supplied name is
    stored and struck from [names]. *)
Definition extract_step (kwargs : list (string * Value))
    (st : gmap string Value * list string) (name : string)
  : gmap string Value * list string :=
  match assoc_get name kwargs with
  | Some v => (<[name := v]> (fst st), remove_all name (snd st))
  | None => st
  end.

Definition extract (kwargs : list (string * Value)) (registry : list string)
    (st : gmap string Value * list string)
  : gmap string Value * list string :=
  foldl (extract_step kwargs) st registry.

(** [for name in names: ...; while name in names: names.remove(name)].
    The list iterator keeps an index [i] into the list that the body
    shortens; it stops when [i] is past the end of the current list.  Each
    round advances [i], so [length names] rounds of fuel are never used up
    (see [unknown_loop_fuel]). *)
Fixpoint unknown_loop (fuel : nat) (kwargs : list (string * Value))
    (i : nat) (names : list string) (unknown : gmap string Value)
  : result (list string * gmap string Value) :=
  match fuel with
  | O => Ok (names, unknown)
  | S fuel' =>
      match names !! i with
      | None => Ok (names, unknown)
      | Some name =>
          match assoc_get name kwargs with
          | None => Raise (KeyError name)
          | Some v =>
              unknown_loop fuel' kwargs (S i) (remove_all name names)
                (<[name := v]> unknown)
          end
      end
  end.

(** The nested loops over [key_ops]: every entry must compare equal to
    exactly one entry. *)
Definition count_eq (ko : string) (ops : list string) : nat :=
  List.length (List.filter (fun cko => bool_decide (ko = cko)) ops).

Definition key_ops_ok (ops : list string) : bool :=
  forallb (fun ko => Nat.eqb (count_eq ko ops) 1) ops.

Definition sigl : list string := ["sign"; "verify"].
Definition encl : list string :=
  ["encrypt"; "decrypt"; "wrapKey"; "unwrapKey"; "deriveKey"; "deriveBits"].

(** The [use]/[key_ops] consistency check. *)
Definition use_key_ops_ok (params : gmap string Value) : bool :=
  match params !! "use", params !! "key_ops" with
  | Some use, Some ops =>
      if decide (use = VStr "sig") then
        negb (existsb (fun op => value_contains op ops) encl)
      else if decide (use = VStr "enc") then
        negb (existsb (fun op => value_contains op ops) sigl)
      else true
  | _, _ => true
  end.

(** [kty not in JWKTypesRegistry], followed by [JWKValuesRegistry[kty]]:
    an absent or unregistered type raises [InvalidJWKType]; a list is not
    hashable and the membership test itself raises [TypeError]. *)
Definition lookup_kty (kty : option Value)
  : result (list (string * (string * visibility))) :=
  match kty with
  | None => Raise (InvalidJWKType None)
  | Some (VList l) => Raise TypeError
  | Some (VStr s) =>
      if bool_decide (s ∈ keys JWKTypesRegistry) then
        match assoc_get s JWKValuesRegistry with
        | Some values => Ok values
        | None => Raise (KeyError s)
        end
      else Raise (InvalidJWKType (Some (VStr s)))
  end.

(** [JWK.__init__] applied to the keyword arguments [kwargs]. *)
Definition JWK_init (kwargs : list (string * Value)) : result JWK :=
  let names := keys kwargs in
  let '(params, names) :=
    extract kwargs (keys JWKParamsRegistry) (∅, names) in
  let* values := lookup_kty (params !! "kty") in
  let '(key, names) := extract kwargs (keys values) (∅, names) in
  let* r := unknown_loop (List.length names) kwargs 0 names ∅ in
  let '(names, unknown) := r in
  if negb (Nat.eqb (List.length names) 0) then
    Raise (InvalidJWKValue (UnknownKeyParameters names))
  else if Nat.eqb (size key) 0 then
    Raise (InvalidJWKValue NoKeyValuesFound)
  else if
    match params !! "key_ops" with
    | Some ops => negb (key_ops_ok (iter_value ops))
    | None => false
    end
  then Raise (InvalidJWKValue DuplicateKeyOps)
  else if negb (use_key_ops_ok params) then
    Raise (InvalidJWKValue IncompatibleUseKeyOps)
  else Ok (mkJWK params key unknown).

(** ** Curve selection and the constraint checker *)

Inductive curve : Type := SECP256R1 | SECP384R1 | SECP521R1.

(** Truthiness of the optional curve hint: [None] and the empty string are
    false. *)
Definition hint (arg : option string) : option string :=
  match arg with
  | Some a => if bool_decide (a = "") then None else Some a
  | None => None
  end.

(** [JWK.get_curve]. *)
Definition get_curve (self : JWK) (arg : option string) : result curve :=
  let k := _key self in
  let* kty := getitem (_params self) "kty" in
  if negb (bool_decide (kty = VStr "EC")) then
    Raise (InvalidJWKType (Some (VStr "Not an EC key")))
  else
    let* _ :=
      match hint arg with
      | Some a =>
          let* crv := getitem k "crv" in
          if negb (bool_decide (crv = VStr a)) then
            Raise (InvalidJWKValue (CurveMismatch a crv))
          else Ok tt
      | None => Ok tt
      end in
    let* crv := getitem k "crv" in
    if bool_decide (crv = VStr "P-256") then Ok SECP256R1
    else if bool_decide (crv = VStr "P-384") then Ok SECP384R1
    else if bool_decide (crv = VStr "P-521") then Ok SECP521R1
    else Raise (InvalidJWKValue UnknownCurveType).

(** [if not isinstance(ops, list): ops = [ops]]. *)
Definition as_list (ops : Value) : list Value :=
  match ops with
  | VList l => map VStr l
  | VStr s => [VStr s]
  end.

(** [JWK._check_constraints]. *)
Definition _check_constraints (self : JWK) (usage operation : string)
  : result unit :=
  let* _ :=
    match _params self !! "use" with
    | Some use =>
        if truthy use && negb (bool_decide (use = VStr usage)) then
          Raise (InvalidJWKUsage usage use)
        else Ok tt
    | None => Ok tt
    end in
  match _params self !! "key_ops" with
  | Some ops =>
      if truthy ops then
        let ops := as_list ops in
        if negb (bool_decide (VStr operation ∈ ops)) then
          Raise (InvalidJWKOperation (Some operation) ops)
        else Ok tt
      else Ok tt
  | None => Ok tt
  end.

(** ** Integer decoding *)

Definition hexdigits : string := "0123456789abcdef".

Definition hex_char (d : N) : ascii :=
  match String.get (N.to_nat d) hexdigits with
  | Some c => c
  | None => "0"%char
  end.

(** [binascii.hexlify]: two lower-case hexadecimal digits per octet. *)
Fixpoint hexlify (bs : list byte) : string :=
  match bs with
  | [] => ""
  | b :: bs' =>
      let n := Byte.to_N b in
      String (hex_char (n / 16)) (String (hex_char (n mod 16)) (hexlify bs'))
  end.

Definition digit_value (c : ascii) : option Z :=
  let n := Z.of_N (N_of_ascii c) in
  if (48 <=? n)%Z && (n <=? 57)%Z then Some (n - 48)%Z
  else if (97 <=? n)%Z && (n <=? 102)%Z then Some (n - 87)%Z
  else if (65 <=? n)%Z && (n <=? 70)%Z then Some (n - 55)%Z
  else None.

Fixpoint int16_digits (acc : Z) (s : string) : result Z :=
  match s with
  | EmptyString => Ok acc
  | String c s' =>
      match digit_value c with
      | Some d => int16_digits (acc * 16 + d) s'
      | None => Raise ValueError
      end
  end.

(** [int(s, 16)] on a string of hexadecimal digits, as [hexlify] produces
    them; the empty string is not a literal and raises [ValueError]. *)
Definition int16 (s : string) : result Z :=
  match s with
  | EmptyString => Raise ValueError
  | _ => int16_digits 0 s
  end.

(** The unsigned big-endian value of an octet string:
    the sum of [byte_i * 256 ^ (len - 1 - i)]. *)
Fixpoint be_value (bs : list byte) : Z :=
  match bs with
  | [] => 0
  | b :: bs' =>
      Z.of_N (Byte.to_N b) * 256 ^ Z.of_nat (List.length bs') + be_value bs'
  end.

(** ** Numbers handed to the cryptographic provider *)

Record RSAPublicNumbers : Type := mkRSAPublicNumbers {
  rsa_e : Z;
  rsa_n : Z
}.

Record RSAPrivateNumbers : Type := mkRSAPrivateNumbers {
  rsa_p : Z;
  rsa_q : Z;
  rsa_d : Z;
  rsa_dmp1 : Z;
  rsa_dmq1 : Z;
  rsa_iqmp : Z;
  rsa_public_numbers : RSAPublicNumbers
}.

Record EllipticCurvePublicNumbers : Type := mkEllipticCurvePublicNumbers {
  ec_x : Z;
  ec_y : Z;
  ec_curve : curve
}.

Record EllipticCurvePrivateNumbers : Type := mkEllipticCurvePrivateNumbers {
  ec_private_value : Z;
  ec_public_numbers : EllipticCurvePublicNumbers
}.

(** What [get_op_key] returns: the raw secret of an [oct] key, or a key
    object built by the provider. *)
Inductive opkey (handle : Type) : Type :=
| Raw (v : Value)
| Handle (h : handle).

Arguments Raw {handle} v.
Arguments Handle {handle} h.

(** ** The material resolver

    The collaborators form an interface: [base64url_decode] of
    [jwcrypto.common], and the provider's [public_key(backend)] and
    [private_key(backend)] on assembled numbers, which return a key object
    of type [handle] or raise. *)

Class Collaborators (handle : Type) : Type := {
  base64url_decode : Value -> result (list byte);
  rsa_public_key : RSAPublicNumbers -> result handle;
  rsa_private_key : RSAPrivateNumbers -> result handle;
  ec_public_key : EllipticCurvePublicNumbers -> result handle;
  ec_private_key : EllipticCurvePrivateNumbers -> result handle
}.

Section Resolver.

Context {handle : Type} {collaborators : Collaborators handle}.

(** [JWK._decode_int]. *)
Definition _decode_int (n : Value) : result Z :=
  let* bs := base64url_decode n in
  int16 (hexlify bs).

Definition _rsa_pub (k : gmap string Value) : result RSAPublicNumbers :=
  let* ve := getitem k "e" in
  let* e := _decode_int ve in
  let* vn := getitem k "n" in
  let* n := _decode_int vn in
  Ok (mkRSAPublicNumbers e n).

Definition _rsa_pri (k : gmap string Value) : result RSAPrivateNumbers :=
  let* vp := getitem k "p" in
  let* p := _decode_int vp in
  let* vq := getitem k "q" in
  let* q := _decode_int vq in
  let* vd := getitem k "d" in
  let* d := _decode_int vd in
  let* vdp := getitem k "dp" in
  let* dp := _decode_int vdp in
  let* vdq := getitem k "dq" in
  let* dq := _decode_int vdq in
  let* vqi := getitem k "qi" in
  let* qi := _decode_int vqi in
  let* pub := _rsa_pub k in
  Ok (mkRSAPrivateNumbers p q d dp dq qi pub).

Definition _ec_pub (self : JWK) (k : gmap string Value)
    (curve : option string) : result EllipticCurvePublicNumbers :=
  let* vx := getitem k "x" in
  let* x := _decode_int vx in
  let* vy := getitem k "y" in
  let* y := _decode_int vy in
  let* c := get_curve self curve in
  Ok (mkEllipticCurvePublicNumbers x y c).

Definition _ec_pri (self : JWK) (k : gmap string Value)
    (curve : option string) : result EllipticCurvePrivateNumbers :=
  let* vd := getitem k "d" in
  let* d := _decode_int vd in
  let* pub := _ec_pub self k curve in
  Ok (mkEllipticCurvePrivateNumbers d pub).

Definition _get_public_key (self : JWK) (arg : option string)
  : result (opkey handle) :=
  let* kty := getitem (_params self) "kty" in
  if bool_decide (kty = VStr "oct") then
    let* k := getitem (_key self) "k" in Ok (Raw k)
  else if bool_decide (kty = VStr "RSA") then
    let* numbers := _rsa_pub (_key self) in
    let* h := rsa_public_key numbers in Ok (Handle h)
  else if bool_decide (kty = VStr "EC") then
    let* numbers := _ec_pub self (_key self) arg in
    let* h := ec_public_key numbers in Ok (Handle h)
  else Raise NotImplementedError.

Definition _get_private_key (self : JWK) (arg : option string)
  : result (opkey handle) :=
  let* kty := getitem (_params self) "kty" in
  if bool_decide (kty = VStr "oct") then
    let* k := getitem (_key self) "k" in Ok (Raw k)
  else if bool_decide (kty = VStr "RSA") then
    let* numbers := _rsa_pri (_key self) in
    let* h := rsa_private_key numbers in Ok (Handle h)
  else if bool_decide (kty = VStr "EC") then
    let* numbers := _ec_pri self (_key self) arg in
    let* h := ec_private_key numbers in Ok (Handle h)
  else Raise NotImplementedError.

(** [JWK.get_op_key], with the method [self._check_constraints] it calls
    made a parameter, so that a statement can range over every checker.
    [validops is not list] compares with the type object and always
    holds, so [validops] is always wrapped in a list. *)
Definition get_op_key_with (check : string -> string -> result unit)
    (self : JWK) (operation : option string) (arg : option string)
  : result (opkey handle) :=
  let validops :=
    match _params self !! "key_ops" with
    | Some ops => ops
    | None => VList (keys JWKOperationsRegistry)
    end in
  let validops := [validops] in
  match operation with
  | None =>
      let* kty := getitem (_params self) "kty" in
      if bool_decide (kty = VStr "oct") then
        let* k := getitem (_key self) "k" in Ok (Raw k)
      else Raise (InvalidJWKOperation operation validops)
  | Some op =>
      if bool_decide (op = "sign") then
        let* _ := check "sig" op in _get_private_key self arg
      else if bool_decide (op = "verify") then
        let* _ := check "sig" op in _get_public_key self arg
      else if bool_decide (op = "encrypt") || bool_decide (op = "wrapKey")
      then
        let* _ := check "enc" op in _get_public_key self arg
      else if bool_decide (op = "decrypt") || bool_decide (op = "unwrapKey")
      then
        let* _ := check "enc" op in _get_private_key self arg
      else Raise NotImplementedError
  end.

Definition get_op_key (self : JWK) (operation : option string)
    (arg : option string) : result (opkey handle) :=
  get_op_key_with (_check_constraints self) self operation arg.

End Resolver.

(** ** Export

    [json_encode] and [json_decode] of [jwcrypto.common] are parameters. *)

Section JsonExport.

Context {json : Type}.
Variable json_encode : gmap string Value -> json.

(** [JWK.export]. *)
Definition export (self : JWK) : json :=
  let d : gmap string Value := ∅ in
  let d := dict_update d (_params self) in
  let d := dict_update d (_key self) in
  let d := dict_update d (_unknown self) in
  json_encode d.

End JsonExport.

(** ** Accessors and the key collection *)

(** The properties [JWK.key_type] and [JWK.key_id]. *)
Definition key_type (self : JWK) : option Value := _params self !! "kty".

Definition key_id (self : JWK) : option Value := _params self !! "kid".

(** What may be passed to [JWKSet.add]: a [JWK] object, known by its
    identity, or an object of another class. *)
Inductive object : Type :=
| JWKObject (id : nat) (jwk : JWK)
| OtherObject.

(** [JWKSet] is a [set] whose elements hash and compare by identity: a finite
    map from the identity of each member to the member.  [JWKSet.add] refuses
    what is not a [JWK]; adding a member again changes nothing. *)
Definition JWKSet_add (self : gmap nat JWK) (elem : object)
  : result (gmap nat JWK) :=
  match elem with
  | JWKObject id jwk =>
      Ok (match self !! id with
          | Some _ => self
          | None => <[id := jwk]> self
          end)
  | OtherObject => Raise TypeError
  end.

(** The loop of [JWKSet.get_key] over the members in iteration order: the
    first member whose [key_id] equals [kid], where [kid] may be [None]. *)
Fixpoint find_key (kid : option Value) (members : list (nat * JWK))
  : option (nat * JWK) :=
  match members with
  | [] => None
  | (id, jwk) :: members' =>
      if decide (key_id jwk = kid) then Some (id, jwk)
      else find_key kid members'
  end.

(** The order in which a set is iterated is not specified: it is a
    parameter, and so are the codec functions. *)
Section KeySet.

Context {json : Type}.
Variable iteration : gmap nat JWK -> list (nat * JWK).
Variable json_encode : gmap string Value -> json.
Variable json_decode : json -> result (gmap string Value).
Variable json_encode_keys : list (gmap string Value) -> json.

(** [JWKSet.get_key]. *)
Definition JWKSet_get_key (self : gmap nat JWK) (kid : option Value)
  : option (nat * JWK) :=
  find_key kid (iteration self).

(** The loop of [JWKSet.export]: each member's export, decoded again. *)
Fixpoint export_keys (members : list (nat * JWK))
  : result (list (gmap string Value)) :=
  match members with
  | [] => Ok []
  | (_, jwk) :: members' =>
      let* d := json_decode (export json_encode jwk) in
      let* ds := export_keys members' in
      Ok (d :: ds)
  end.

(** [JWKSet.export]; [json_encode_keys keys] stands for
    [json_encode({'keys': keys})]. *)
Definition JWKSet_export (self : gmap nat JWK) : result json :=
  let* keys := export_keys (iteration self) in
  Ok (json_encode_keys keys).

End KeySet.

(** ** Concrete collaborators

    Instances of the parameters above, used to run the model on concrete
    keys. *)

Module Concrete.

Definition b64_value (c : ascii) : option N :=
  let n := N_of_ascii c in
  if (65 <=? n)%N && (n <=? 90)%N then Some (n - 65)%N
  else if (97 <=? n)%N && (n <=? 122)%N then Some (n - 71)%N
  else if (48 <=? n)%N && (n <=? 57)%N then Some (n + 4)%N
  else if (n =? 45)%N then Some 62%N
  else if (n =? 95)%N then Some 63%N
  else None.

Fixpoint b64_sextets (s : string) : result (list N) :=
  match s with
  | EmptyString => Ok []
  | String c s' =>
      match b64_value c with
      | Some v => let* vs := b64_sextets s' in Ok (v :: vs)
      | None => Raise ValueError
      end
  end.

Definition octet (n : N) : byte :=
  match Byte.of_N n with
  | Some b => b
  | None => x00
  end.

Fixpoint b64_octets (vs : list N) : result (list byte) :=
  match vs with
  | [] => Ok []
  | [_] => Raise ValueError
  | [a; b] => Ok [octet (a * 4 + b / 16)]
  | [a; b; c] =>
      Ok [octet (a * 4 + b / 16); octet (b mod 16 * 16 + c / 4)]
  | a :: b :: c :: d :: rest =>
      let* tl := b64_octets rest in
      Ok (octet (a * 4 + b / 16) :: octet (b mod 16 * 16 + c / 4)
            :: octet (c mod 4 * 64 + d) :: tl)
  end%N.

(** Modelled from the spec: [base64url_decode] of [jwcrypto.common] is not
    among the sources; this is base64url without padding (RFC 4648,
    section 5) on the URL-safe alphabet, four characters to three octets,
    a final group of two or three characters to one or two octets, and a
    length of one modulo four rejected. *)
Definition decode (payload : Value) : result (list byte) :=
  match payload with
  | VStr s => let* vs := b64_sextets s in b64_octets vs
  | VList _ => Raise TypeError
  end.

(** A provider that accepts every assembled number and returns it as the
    key object. *)
Inductive handle : Type :=
| RSAPublicKey (numbers : RSAPublicNumbers)
| RSAPrivateKey (numbers : RSAPrivateNumbers)
| ECPublicKey (numbers : EllipticCurvePublicNumbers)
| ECPrivateKey (numbers : EllipticCurvePrivateNumbers).

#[global] Instance collaborators : Collaborators handle := {|
  base64url_decode := decode;
  rsa_public_key := fun n => Ok (RSAPublicKey n);
  rsa_private_key := fun n => Ok (RSAPrivateKey n);
  ec_public_key := fun n => Ok (ECPublicKey n);
  ec_private_key := fun n => Ok (ECPrivateKey n)
|}.

End Concrete.

(** ** The dispatch table of [get_op_key]

    The operations answered with public material and those answered with
    private material, each with the usage category that its branch passes
    to the constraint checker. *)

Definition public_operations : list (string * string) :=
  [("sig", "verify"); ("enc", "encrypt"); ("enc", "wrapKey")].

Definition private_operations : list (string * string) :=
  [("sig", "sign"); ("enc", "decrypt"); ("enc", "unwrapKey")].

(** ** Invariant of constructed keys *)

(** Everything a successful construction establishes: the declared type
    [c_kty], its field vocabulary [c_values], and where each name went. *)
Record constructed (kwargs : list (string * Value)) (c_kty : string)
    (c_values : list (string * (string * visibility))) (self : JWK)
  : Prop := {
  c_kty_supplied : assoc_get "kty" kwargs = Some (VStr c_kty);
  c_kty_registered : c_kty ∈ keys JWKTypesRegistry;
  c_values_registered : assoc_get c_kty JWKValuesRegistry = Some c_values;
  c_params : forall name,
      _params self !! name =
      if bool_decide (name ∈ keys JWKParamsRegistry)
      then assoc_get name kwargs else None;
  c_key : forall name,
      _key self !! name =
      if bool_decide (name ∈ keys c_values)
      then assoc_get name kwargs else None;
  c_unknown : forall name,
      _unknown self !! name =
      if bool_decide (name ∈ keys JWKParamsRegistry)
         || bool_decide (name ∈ keys c_values)
      then None else assoc_get name kwargs;
  c_material : size (_key self) <> 0;
  c_key_ops : forall ops,
      _params self !! "key_ops" = Some ops ->
      key_ops_ok (iter_value ops) = true;
  c_use_key_ops : use_key_ops_ok (_params self) = true
}.

(** ** Example keys *)

Module Examples.

(** A symmetric key, alone and with one extension field. *)
Definition oct_fields : list (string * Value) :=
  [("kty", VStr "oct"); ("k", VStr "AQAB")].

Definition oct_key : JWK :=
  mkJWK {[ "kty" := VStr "oct" ]} {[ "k" := VStr "AQAB" ]} ∅.

Definition oct_extension_fields : list (string * Value) :=
  [("kty", VStr "oct"); ("k", VStr "AQAB"); ("foo", VStr "1")].

Definition oct_extension_key : JWK :=
  mkJWK {[ "kty" := VStr "oct" ]} {[ "k" := VStr "AQAB" ]}
        {[ "foo" := VStr "1" ]}.

(** The same key with two extension fields. *)
Definition two_extension_fields : list (string * Value) :=
  [("kty", VStr "oct"); ("k", VStr "AQAB");
   ("foo", VStr "1"); ("bar", VStr "2")].

(** Symmetric keys with an empty [key_ops], an empty [use], a [use] and a
    [key_ops] for encryption, and a [key_ops] that names no operation that
    [get_op_key] serves. *)
Definition oct_no_ops_fields : list (string * Value) :=
  [("kty", VStr "oct"); ("k", VStr "AQAB"); ("key_ops", VList [])].

Definition oct_no_ops_key : JWK :=
  mkJWK (<[ "key_ops" := VList [] ]> {[ "kty" := VStr "oct" ]})
        {[ "k" := VStr "AQAB" ]} ∅.

Definition oct_no_use_fields : list (string * Value) :=
  [("kty", VStr "oct"); ("k", VStr "AQAB"); ("use", VStr "")].

Definition oct_no_use_key : JWK :=
  mkJWK (<[ "use" := VStr "" ]> {[ "kty" := VStr "oct" ]})
        {[ "k" := VStr "AQAB" ]} ∅.

Definition oct_enc_fields : list (string * Value) :=
  [("kty", VStr "oct"); ("k", VStr "AQAB");
   ("use", VStr "enc"); ("key_ops", VList ["encrypt"])].

Definition oct_enc_key : JWK :=
  mkJWK (<[ "key_ops" := VList ["encrypt"] ]>
           (<[ "use" := VStr "enc" ]> {[ "kty" := VStr "oct" ]}))
        {[ "k" := VStr "AQAB" ]} ∅.

Definition oct_derive_fields : list (string * Value) :=
  [("kty", VStr "oct"); ("k", VStr "AQAB");
   ("key_ops", VList ["deriveKey"])].

Definition oct_derive_key : JWK :=
  mkJWK (<[ "key_ops" := VList ["deriveKey"] ]> {[ "kty" := VStr "oct" ]})
        {[ "k" := VStr "AQAB" ]} ∅.

(** An RSA key with its public fields only. *)
Definition rsa_public_fields : list (string * Value) :=
  [("kty", VStr "RSA"); ("n", VStr "AQAD"); ("e", VStr "AQAB")].

Definition rsa_key : JWK :=
  mkJWK {[ "kty" := VStr "RSA" ]}
        (<[ "e" := VStr "AQAB" ]> {[ "n" := VStr "AQAD" ]}) ∅.

(** An EC key on a curve that is not registered. *)
Definition ec_p192_fields : list (string * Value) :=
  [("kty", VStr "EC"); ("crv", VStr "P-192");
   ("x", VStr "AQAB"); ("y", VStr "AQAD")].

Definition ec_p192_key : JWK :=
  mkJWK {[ "kty" := VStr "EC" ]}
        (<[ "y" := VStr "AQAD" ]>
           (<[ "x" := VStr "AQAB" ]> {[ "crv" := VStr "P-192" ]})) ∅.

End Examples.

(** ** More example keys *)

Module Samples.

(** A symmetric key with an identifier. *)
Definition oct_kid_fields : list (string * Value) :=
  [("kty", VStr "oct"); ("k", VStr "AQAB"); ("kid", VStr "key-1")].

Definition oct_kid_key : JWK :=
  mkJWK (<[ "kid" := VStr "key-1" ]> {[ "kty" := VStr "oct" ]})
        {[ "k" := VStr "AQAB" ]} ∅.

(** An EC key on P-256 with its private scalar. *)
Definition ec_p256_fields : list (string * Value) :=
  [("kty", VStr "EC"); ("crv", VStr "P-256");
   ("x", VStr "AQAB"); ("y", VStr "AQAD"); ("d", VStr "Bw")].

Definition ec_p256_key : JWK :=
  mkJWK {[ "kty" := VStr "EC" ]}
        (<[ "d" := VStr "Bw" ]>
           (<[ "y" := VStr "AQAD" ]>
              (<[ "x" := VStr "AQAB" ]> {[ "crv" := VStr "P-256" ]}))) ∅.

(** An RSA key with all its private fields. *)
Definition rsa_private_fields : list (string * Value) :=
  [("kty", VStr "RSA"); ("n", VStr "AQAD"); ("e", VStr "AQAB");
   ("d", VStr "Bw"); ("p", VStr "Cw"); ("q", VStr "DQ");
   ("dp", VStr "EQ"); ("dq", VStr "Ew"); ("qi", VStr "Fw")].

Definition rsa_private_key : JWK :=
  mkJWK {[ "kty" := VStr "RSA" ]}
        (list_to_map
           [("n", VStr "AQAD"); ("e", VStr "AQAB");
            ("d", VStr "Bw"); ("p", VStr "Cw"); ("q", VStr "DQ");
            ("dp", VStr "EQ"); ("dq", VStr "Ew"); ("qi", VStr "Fw")]) ∅.

(** A collection of two keys, the objects numbered 1 and 2. *)
Definition two_keys : gmap nat JWK :=
  <[ 2 := rsa_private_key ]> {[ 1 := oct_kid_key ]}.

End Samples.

(** * Properties *)

(** ** Dictionaries and the list of names *)

Lemma assoc_get_None {V : Type} (name : string) (d : list (string * V)) :
  assoc_get name d = None <-> name ∉ keys d.
Proof.
  induction d as [|[n v] d IH]; simpl.
  - split; [intros _; apply not_elem_of_nil | done].
  - destruct (decide (n = name)) as [->|Hne].
    + split; [done | intros H; exfalso; apply H; left].
    + rewrite IH, not_elem_of_cons. naive_solver.
Qed.

Lemma assoc_get_Some_keys {V : Type} (name : string) (d : list (string * V)) :
  is_Some (assoc_get name d) <-> name ∈ keys d.
Proof.
  rewrite <- not_eq_None_Some, assoc_get_None.
  split; [apply dec_stable | auto].
Qed.

Lemma lookup_list_to_map (name : string) (d : list (string * Value)) :
  (list_to_map d : gmap string Value) !! name = assoc_get name d.
Proof.
  induction d as [|[n v] d IH]; simpl.
  - apply lookup_empty.
  - destruct (decide (n = name)) as [->|Hne].
    + apply lookup_insert_eq.
    + by rewrite lookup_insert_ne.
Qed.

Lemma elem_of_remove_all (x name : string) (names : list string) :
  x ∈ remove_all name names <-> x ∈ names /\ x <> name.
Proof.
  induction names as [|y names IH]; simpl.
  - rewrite elem_of_nil. tauto.
  - destruct (decide (y = name)) as [->|Hne];
      rewrite ?elem_of_cons, IH; naive_solver.
Qed.

Lemma length_remove_all (name : string) (names : list string) :
  List.length (remove_all name names) <= List.length names.
Proof.
  induction names as [|y names IH]; simpl; [lia|].
  destruct (decide (y = name)); simpl; lia.
Qed.

(** ** The loops over the registries *)

Lemma extract_spec (kwargs : list (string * Value)) (registry : list string) :
  forall m names m' names',
    extract kwargs registry (m, names) = (m', names') ->
    (forall name,
        m' !! name =
        if bool_decide (name ∈ registry) then
          match assoc_get name kwargs with
          | Some v => Some v
          | None => m !! name
          end
        else m !! name) /\
    (forall x,
        x ∈ names' <->
        x ∈ names /\ ~ (x ∈ registry /\ is_Some (assoc_get x kwargs))).
Proof.
  unfold extract.
  induction registry as [|a registry IH]; intros m names m' names' H; simpl in H.
  - injection H as <- <-. split.
    + intros name. rewrite bool_decide_eq_false_2; [done | apply not_elem_of_nil].
    + intros x. rewrite elem_of_nil. tauto.
  - unfold extract_step in H at 2. simpl in H.
    destruct (assoc_get a kwargs) as [v|] eqn:Ha.
    + apply IH in H as [Hm Hn]. split.
      * intros name. rewrite Hm. clear Hm Hn.
        destruct (decide (name = a)) as [->|Hne].
        -- rewrite Ha, lookup_insert_eq.
           rewrite (bool_decide_eq_true_2 (a ∈ a :: registry)); [|left].
           by case_bool_decide.
        -- rewrite lookup_insert_ne by done.
           rewrite (bool_decide_ext (name ∈ a :: registry) (name ∈ registry));
             [done | rewrite elem_of_cons; naive_solver].
      * intros x. rewrite Hn, elem_of_remove_all, elem_of_cons. clear Hm Hn.
        split.
        -- intros [[Hx Hne] Hno]. split; [done|].
           intros [[->|Hr] Hs]; [done | by apply Hno].
        -- intros [Hx Hno]. split; [split; [done|] |].
           ++ intros ->. apply Hno. split; [by left | by rewrite Ha].
           ++ intros [Hr Hs]. apply Hno. split; [by right | done].
    + destruct (IH _ _ _ _ H) as [Hm Hn]. split.
      * intros name. rewrite Hm. clear Hm Hn.
        destruct (decide (name = a)) as [->|Hne].
        -- rewrite Ha.
           rewrite (bool_decide_eq_true_2 (a ∈ a :: registry)); [|left].
           by case_bool_decide.
        -- rewrite (bool_decide_ext (name ∈ a :: registry) (name ∈ registry));
             [done | rewrite elem_of_cons; naive_solver].
      * intros x. rewrite Hn, elem_of_cons. clear Hm Hn.
        split.
        -- intros [Hx Hno]. split; [done|].
           intros [[->|Hr] Hs]; [by rewrite Ha in Hs; destruct Hs | by apply Hno].
        -- intros [Hx Hno]. split; [done|].
           intros [Hr Hs]. apply Hno. split; [by right | done].
Qed.

(** Extraction into an empty dictionary: a name is stored exactly when it
    is in the registry and supplied; a name stays in [names] exactly when it
    is not in the registry. *)
Lemma extract_empty (kwargs : list (string * Value)) (registry : list string)
    (names : list string) m' names' :
  (forall x, x ∈ names -> x ∈ keys kwargs) ->
  extract kwargs registry (∅, names) = (m', names') ->
  (forall name,
      m' !! name =
      if bool_decide (name ∈ registry) then assoc_get name kwargs else None) /\
  (forall x, x ∈ names' <-> x ∈ names /\ x ∉ registry).
Proof.
  intros Hsub H. apply extract_spec in H as [Hm Hn]. split.
  - intros name. rewrite Hm, lookup_empty.
    case_bool_decide; [by destruct (assoc_get name kwargs) | done].
  - intros x. rewrite Hn. split.
    + intros [Hx Hno]. split; [done|]. intros Hr. apply Hno. split; [done|].
      by apply assoc_get_Some_keys, Hsub.
    + intros [Hx Hno]. split; [done|]. by intros [Hr _].
Qed.

(** ** The loop over the remaining names *)

(** More fuel than the list's length past the index changes nothing: the
    model's result is the loop's. *)
Lemma unknown_loop_fuel (kwargs : list (string * Value)) :
  forall fuel fuel' i names unknown,
    List.length names <= i + fuel -> fuel <= fuel' ->
    unknown_loop fuel' kwargs i names unknown
    = unknown_loop fuel kwargs i names unknown.
Proof.
  induction fuel as [|fuel IH]; intros fuel' i names unknown Hlen Hle.
  - assert (names !! i = None) as Hi by (apply lookup_ge_None; lia).
    destruct fuel'; simpl; [done | by rewrite Hi].
  - destruct fuel' as [|fuel']; [lia|]. simpl.
    destruct (names !! i) as [name|]; [|done].
    destruct (assoc_get name kwargs) as [v|]; [|done].
    apply IH; [|lia].
    pose proof (length_remove_all name names). lia.
Qed.

(** What the loop leaves behind: the names still listed were never stored,
    and every name struck from the list is stored with its supplied value. *)
Lemma unknown_loop_spec (kwargs : list (string * Value)) :
  forall fuel i names unknown names' unknown',
    unknown_loop fuel kwargs i names unknown = Ok (names', unknown') ->
    (forall x, x ∈ names' -> x ∈ names) /\
    (forall x, x ∉ names \/ x ∈ names' -> unknown' !! x = unknown !! x) /\
    (forall x, x ∈ names -> x ∉ names' ->
               is_Some (assoc_get x kwargs) /\
               unknown' !! x = assoc_get x kwargs).
Proof.
  induction fuel as [|fuel IH]; intros i names unknown names' unknown' H;
    simpl in H.
  - injection H as <- <-. repeat split; try done.
  - destruct (names !! i) as [name|] eqn:Hi; [|by injection H as <- <-].
    destruct (assoc_get name kwargs) as [v|] eqn:Hv; [|done].
    apply IH in H as (Hsub & Hsame & Hstored).
    assert (forall x, x ∈ names' -> x ∈ names /\ x <> name) as Hsub'
      by (intros x Hx; by apply elem_of_remove_all, Hsub).
    split; [|split].
    + intros x Hx. by apply Hsub'.
    + intros x Hx. rewrite Hsame.
      * apply lookup_insert_ne. intros <-.
        destruct Hx as [Hx|Hx]; [|by apply Hsub' in Hx as [_ ?]].
        apply Hx. eapply list_elem_of_lookup_2, Hi.
      * destruct Hx as [Hx|Hx]; [left | by right].
        rewrite elem_of_remove_all. tauto.
    + intros x Hx Hnx. destruct (decide (x = name)) as [->|Hne].
      * rewrite Hsame, lookup_insert_eq, Hv; [done|].
        left. rewrite elem_of_remove_all. tauto.
      * apply Hstored; [|done]. by apply elem_of_remove_all.
Qed.

(** ** Construction *)

(** The two registries of names that a key of each type draws from are
    disjoint. *)
Lemma registries_disjoint (kty : string)
    (values : list (string * (string * visibility))) (name : string) :
  assoc_get kty JWKValuesRegistry = Some values ->
  name ∈ keys JWKParamsRegistry -> name ∈ keys values -> False.
Proof.
  intros Hv Hp Hk. unfold JWKValuesRegistry in Hv. simpl in Hv.
  repeat (case_decide; [injection Hv as <-; simpl in Hp, Hk;
                        set_solver |]).
  done.
Qed.

Lemma lookup_kty_Ok (kty : option Value) values :
  lookup_kty kty = Ok values ->
  exists s, kty = Some (VStr s) /\ s ∈ keys JWKTypesRegistry /\
            assoc_get s JWKValuesRegistry = Some values.
Proof.
  unfold lookup_kty. intros H.
  destruct kty as [[s|l]|]; try done.
  case_bool_decide as Hs; [|done].
  destruct (assoc_get s JWKValuesRegistry) as [vs|] eqn:Hv; [|done].
  injection H as <-. eauto.
Qed.

(** A successful construction yields a key that satisfies the invariant. *)
Lemma JWK_init_constructed (kwargs : list (string * Value)) (self : JWK) :
  JWK_init kwargs = Ok self ->
  exists kty values, constructed kwargs kty values self.
Proof.
  unfold JWK_init. intros H.
  destruct (extract kwargs (keys JWKParamsRegistry) (∅, keys kwargs))
    as [params names1] eqn:E1.
  apply extract_empty in E1 as [Hp Hn1]; [|done].
  destruct (lookup_kty (params !! "kty")) as [values|] eqn:Hk; [|done].
  simpl in H.
  destruct (extract kwargs (keys values) (∅, names1)) as [key names2] eqn:E2.
  apply extract_empty in E2 as [Hkey Hn2];
    [|intros x Hx; by apply Hn1 in Hx as [? _]].
  destruct (unknown_loop (List.length names2) kwargs 0 names2 ∅)
    as [[names3 unknown]|] eqn:E3; [|done].
  simpl in H.
  destruct names3 as [|n3 names3]; [|done]. simpl in H.
  destruct (Nat.eqb (size key) 0) eqn:Hsize; [done|].
  destruct (match params !! "key_ops" with
            | Some ops => negb (key_ops_ok (iter_value ops))
            | None => false
            end) eqn:Hops; [done|].
  destruct (negb (use_key_ops_ok params)) eqn:Huse; [done|].
  injection H as <-.
  apply lookup_kty_Ok in Hk as (kty & Hkty & Hreg & Hvalues).
  rewrite Hp in Hkty. simpl in Hkty.
  apply unknown_loop_spec in E3 as (_ & Hsame & Hstored).
  exists kty, values. split; cbn [_params _key _unknown]; try done.
  - intros name.
    destruct (bool_decide (name ∈ keys JWKParamsRegistry)) eqn:Hb1; simpl.
    + apply bool_decide_eq_true in Hb1.
      rewrite Hsame, lookup_empty; [done|]. left.
      rewrite Hn2, Hn1. tauto.
    + apply bool_decide_eq_false in Hb1.
      case_bool_decide as Hb2.
      * rewrite Hsame, lookup_empty; [done|]. left. rewrite Hn2. tauto.
      * destruct (decide (name ∈ keys kwargs)) as [Hin|Hout].
        -- apply Hstored; [|apply not_elem_of_nil].
           rewrite Hn2, Hn1. tauto.
        -- rewrite Hsame, lookup_empty.
           ++ symmetry. by apply assoc_get_None.
           ++ left. rewrite Hn2, Hn1. tauto.
  - by apply Nat.eqb_neq.
  - intros ops Hsome. rewrite Hsome in Hops. by apply negb_false_iff.
  - by apply negb_false_iff.
Qed.

(** ** Classification of the supplied fields *)

(** C5: for every field mapping accepted by construction, each supplied
    name lands in exactly one of [_params], [_key] and [_unknown] with its
    supplied value: in [_params] when the metadata registry has the name,
    otherwise in [_key] when the field vocabulary of the declared type has
    it, otherwise in [_unknown]; a name that was not supplied is in none. *)
Theorem C5_partition (kwargs : list (string * Value)) (self : JWK) :
  JWK_init kwargs = Ok self ->
  exists kty values,
    _params self !! "kty" = Some (VStr kty) /\
    assoc_get kty JWKValuesRegistry = Some values /\
    (forall name v,
        assoc_get name kwargs = Some v ->
        if bool_decide (name ∈ keys JWKParamsRegistry) then
          _params self !! name = Some v /\
          _key self !! name = None /\ _unknown self !! name = None
        else if bool_decide (name ∈ keys values) then
          _params self !! name = None /\
          _key self !! name = Some v /\ _unknown self !! name = None
        else
          _params self !! name = None /\
          _key self !! name = None /\ _unknown self !! name = Some v) /\
    (forall name,
        assoc_get name kwargs = None ->
        _params self !! name = None /\
        _key self !! name = None /\ _unknown self !! name = None).
Proof.
  intros H. apply JWK_init_constructed in H as (kty & values & C).
  destruct C as [Hkty Hreg Hvalues Hp Hk Hu _ _ _].
  exists kty, values. split; [|split; [done|split]].
  - by rewrite Hp.
  - intros name v Hv. rewrite Hp, Hk, Hu.
    destruct (bool_decide (name ∈ keys JWKParamsRegistry)) eqn:Hb1.
    + apply bool_decide_eq_true in Hb1.
      rewrite bool_decide_eq_false_2; [done|].
      intros Hb2. eapply registries_disjoint; eauto.
    + destruct (bool_decide (name ∈ keys values)); simpl; auto.
  - intros name Hv. rewrite Hp, Hk, Hu, Hv.
    by repeat case_bool_decide.
Qed.

(** ** Absent or unregistered key type *)



(** ** Export *)

Section ExportRoundTrip.

Context {json : Type}.
Variable json_encode : gmap string Value -> json.
Variable json_decode : json -> result (gmap string Value).
Hypothesis json_decode_encode : forall d, json_decode (json_encode d) = Ok d.

(** C3: for every field mapping that passes construction, decoding the
    document produced by [export] yields a mapping in which every
    supplied name has its supplied value and no other name appears. *)
Theorem C3_export_round_trip (kwargs : list (string * Value)) (self : JWK) :
  JWK_init kwargs = Ok self ->
  exists d : gmap string Value,
    json_decode (export json_encode self) = Ok d /\
    forall name, d !! name = assoc_get name kwargs.
Proof.
  intros H. apply JWK_init_constructed in H as (kty & values & C).
  destruct C as [_ _ Hvalues Hp Hk Hu _ _ _].
  unfold export. rewrite json_decode_encode.
  eexists. split; [reflexivity|].
  intros name. unfold dict_update.
  rewrite !lookup_union, Hp, Hk, Hu, lookup_empty.
  destruct (bool_decide (name ∈ keys JWKParamsRegistry)) eqn:Hb1.
  - apply bool_decide_eq_true in Hb1.
    rewrite bool_decide_eq_false_2
      by (intros Hb2; eapply registries_disjoint; eauto).
    simpl. by destruct (assoc_get name kwargs).
  - destruct (bool_decide (name ∈ keys values)); simpl;
      by destruct (assoc_get name kwargs).
Qed.

End ExportRoundTrip.

(** ** The constraint checker *)

(** Case analysis on the guards of the checker, then the propositional
    residue of each case. *)
Ltac check_guards :=
  repeat match goal with
    | |- context [truthy ?v] => destruct (truthy v) eqn:?; simpl
    | |- context [bool_decide ?P] => destruct (bool_decide_reflect P); simpl
    end.

Ltac check_residue :=
  repeat split;
  repeat match goal with
    | |- _ -> _ => intros ?
    | |- ~ _ => intros ?
    | H : _ /\ _ |- _ => destruct H
    | H : ex _ |- _ => destruct H
    | H : Some _ = Some _ |- _ => injection H as <-
    | H : Raise _ = Raise _ |- _ => injection H as <-
    | H : Ok _ = Raise _ |- _ => discriminate H
    | H : Raise _ = Ok _ |- _ => discriminate H
    | H : Some _ = None |- _ => discriminate H
    | H : None = Some _ |- _ => discriminate H
    | H : kind_of _ = _ |- _ => discriminate H
    end; try congruence; try tauto; eauto 8;
  exfalso; match goal with H : ~ _ |- _ => solve [apply H; eauto 8] end.

Ltac check_cases := check_guards; check_residue.

(** C4: the check raises [InvalidJWKUsage] exactly when [use] is declared
    with a non-empty value that differs from the requested usage; it raises
    [InvalidJWKOperation] exactly when the usage test did not raise and
    [key_ops] is declared with a non-empty value (a lone string standing
    for a one-element list) that does not contain the requested operation;
    otherwise, and in particular when both fields are absent, it returns. *)
Theorem C4_check_constraints (self : JWK) (usage operation : string) :
  let use_rejects :=
    exists use, _params self !! "use" = Some use /\
                truthy use = true /\ use <> VStr usage in
  let ops_reject :=
    exists ops, _params self !! "key_ops" = Some ops /\
                truthy ops = true /\ VStr operation ∉ as_list ops in
  (fails_with (_check_constraints self usage operation) KInvalidUsage
   <-> use_rejects) /\
  (fails_with (_check_constraints self usage operation) KInvalidOperation
   <-> ~ use_rejects /\ ops_reject) /\
  (_check_constraints self usage operation = Ok tt
   <-> ~ use_rejects /\ ~ ops_reject).
Proof.
  unfold _check_constraints, fails_with.
  destruct (_params self !! "use") as [use|];
    destruct (_params self !! "key_ops") as [ops|]; simpl;
    check_cases.
Qed.

(** When the check raises, the exception reports the requested and the
    declared usage, or the requested operation and the allowed ones. *)
Lemma check_constraints_reports (self : JWK) (usage operation : string) e :
  _check_constraints self usage operation = Raise e ->
  (exists use, _params self !! "use" = Some use /\
               e = InvalidJWKUsage usage use) \/
  (exists ops, _params self !! "key_ops" = Some ops /\
               e = InvalidJWKOperation (Some operation) (as_list ops)).
Proof.
  unfold _check_constraints.
  destruct (_params self !! "use") as [use|];
    destruct (_params self !! "key_ops") as [ops|]; simpl;
    check_cases.
Qed.

(** ** Integer decoding *)

Lemma digit_value_high (b : byte) :
  digit_value (hex_char (Byte.to_N b / 16))
  = Some (Z.of_N (Byte.to_N b) / 16)%Z.
Proof. destruct b; reflexivity. Qed.

Lemma digit_value_low (b : byte) :
  digit_value (hex_char (Byte.to_N b mod 16))
  = Some (Z.of_N (Byte.to_N b) mod 16)%Z.
Proof. destruct b; reflexivity. Qed.

Lemma int16_digits_hexlify (bs : list byte) :
  forall acc : Z,
    int16_digits acc (hexlify bs)
    = Ok (acc * 256 ^ Z.of_nat (List.length bs) + be_value bs)%Z.
Proof.
  induction bs as [|b bs IH]; intros acc.
  - simpl. f_equal. lia.
  - cbn [hexlify int16_digits].
    rewrite digit_value_high, digit_value_low, IH.
    cbn [be_value List.length]. f_equal.
    rewrite Nat2Z.inj_succ, Z.pow_succ_r by lia.
    pose proof (Z.div_mod (Z.of_N (Byte.to_N b)) 16 ltac:(lia)) as Hdm.
    set (v := Z.of_N (Byte.to_N b)) in *.
    set (w := (256 ^ Z.of_nat (List.length bs))%Z).
    replace ((acc * 16 + v / 16) * 16 + v mod 16)%Z with (acc * 256 + v)%Z
      by lia.
    ring.
Qed.

Lemma be_value_nonneg (bs : list byte) : (0 <= be_value bs)%Z.
Proof.
  induction bs as [|b bs IH]; simpl; [lia|].
  assert (0 <= 256 ^ Z.of_nat (List.length bs))%Z by (apply Z.pow_nonneg; lia).
  nia.
Qed.

(** C9: when the base64url decoding of a field yields a non-empty octet
    string, [_decode_int] returns the non-negative integer whose big-endian
    base-256 representation is that octet string; when it yields the empty
    octet string, [_decode_int] raises [ValueError]. *)
Theorem C9_decode_int {handle : Type} {collaborators : Collaborators handle}
    (n : Value) (bs : list byte) :
  base64url_decode n = Ok bs ->
  (bs <> [] ->
   _decode_int n = Ok (be_value bs) /\ (0 <= be_value bs)%Z) /\
  (bs = [] -> _decode_int n = Raise ValueError).
Proof.
  intros Hdec. unfold _decode_int. rewrite Hdec. cbn [bind]. split.
  - intros Hne. split; [|apply be_value_nonneg].
    destruct bs as [|b bs]; [done|].
    unfold int16. cbn [hexlify].
    change (String ?c1 (String ?c2 (hexlify bs))) with (hexlify (b :: bs)).
    rewrite int16_digits_hexlify. f_equal.
  - intros ->. reflexivity.
Qed.

(** ** Constructed keys *)

Lemma constructed_kty kwargs kty values self :
  constructed kwargs kty values self ->
  _params self !! "kty" = Some (VStr kty).
Proof. intros C. by rewrite (c_params _ _ _ _ C), (c_kty_supplied _ _ _ _ C). Qed.

(** The field vocabulary is determined by the declared type. *)
Lemma constructed_values kwargs kty values self :
  constructed kwargs kty values self ->
  assoc_get kty JWKValuesRegistry = Some values.
Proof. apply c_values_registered. Qed.

(** A constructed key holds at least one material field. *)
Lemma constructed_material kwargs kty values self :
  constructed kwargs kty values self ->
  exists name v, name ∈ keys values /\ assoc_get name kwargs = Some v /\
                 _key self !! name = Some v.
Proof.
  intros C.
  destruct (map_choose (_key self)) as (name & v & Hv).
  - intros Hempty. apply (c_material _ _ _ _ C).
    by rewrite Hempty, map_size_empty.
  - exists name, v. pose proof (c_key _ _ _ _ C name) as Hk.
    rewrite Hv in Hk. case_bool_decide; [auto | done].
Qed.

(** An [oct] key holds its secret [k]. *)
Lemma oct_key_secret kwargs self :
  JWK_init kwargs = Ok self ->
  _params self !! "kty" = Some (VStr "oct") ->
  exists k, assoc_get "k" kwargs = Some k /\ _key self !! "k" = Some k.
Proof.
  intros H Hoct. apply JWK_init_constructed in H as (kty & values & C).
  rewrite (constructed_kty _ _ _ _ C) in Hoct. injection Hoct as ->.
  pose proof (constructed_values _ _ _ _ C) as Hv.
  vm_compute in Hv. injection Hv as <-.
  destruct (constructed_material _ _ _ _ C) as (name & v & Hin & Hs & Hk).
  assert (name = "k") as -> by set_solver.
  eauto.
Qed.

(** ** The material resolver *)

Section ResolverProperties.

Context {handle : Type} {collaborators : Collaborators handle}.

(** The dispatch tables are those of [get_op_key]. *)
Lemma get_op_key_public check self usage operation arg :
  (usage, operation) ∈ public_operations ->
  get_op_key_with check self (Some operation) arg
  = let* _ := check usage operation in _get_public_key self arg.
Proof.
  unfold public_operations. rewrite !elem_of_cons, elem_of_nil.
  intros [H|[H|[H|[]]]]; injection H as -> ->; reflexivity.
Qed.

Lemma get_op_key_private check self usage operation arg :
  (usage, operation) ∈ private_operations ->
  get_op_key_with check self (Some operation) arg
  = let* _ := check usage operation in _get_private_key self arg.
Proof.
  unfold private_operations. rewrite !elem_of_cons, elem_of_nil.
  intros [H|[H|[H|[]]]]; injection H as -> ->; reflexivity.
Qed.

(** C8: for every [oct] key, a public-material operation and a
    private-material operation on which the constraint check passes both
    return the raw [k] field as it was supplied. *)
Theorem C8_oct_same_secret (kwargs : list (string * Value)) (self : JWK)
    (usage1 op1 usage2 op2 : string) (arg1 arg2 : option string) :
  JWK_init kwargs = Ok self ->
  _params self !! "kty" = Some (VStr "oct") ->
  (usage1, op1) ∈ public_operations ->
  (usage2, op2) ∈ private_operations ->
  _check_constraints self usage1 op1 = Ok tt ->
  _check_constraints self usage2 op2 = Ok tt ->
  exists k,
    assoc_get "k" kwargs = Some k /\
    get_op_key self (Some op1) arg1 = Ok (Raw k) /\
    get_op_key self (Some op2) arg2 = Ok (Raw k).
Proof.
  intros H Hoct Hpub Hpri Hc1 Hc2.
  destruct (oct_key_secret _ _ H Hoct) as (k & Hk & Hkey).
  exists k. split; [done|].
  unfold get_op_key.
  rewrite (get_op_key_public _ _ _ _ _ Hpub),
    (get_op_key_private _ _ _ _ _ Hpri), Hc1, Hc2.
  unfold _get_public_key, _get_private_key, getitem.
  by rewrite Hoct, Hkey.
Qed.

(** C10: with no operation named, an [oct] key answers with its raw [k]
    whatever the constraint checker would say, since no branch calls it:
    the result is the same for every checker.  A key of another type
    raises [InvalidJWKOperation]. *)
Theorem C10_no_operation (kwargs : list (string * Value)) (self : JWK) :
  JWK_init kwargs = Ok self ->
  forall (check : string -> string -> result unit) (arg : option string),
    (_params self !! "kty" = Some (VStr "oct") ->
     exists k, assoc_get "k" kwargs = Some k /\
               get_op_key_with check self None arg = Ok (Raw k)) /\
    (_params self !! "kty" <> Some (VStr "oct") ->
     fails_with (get_op_key_with check self None arg) KInvalidOperation).
Proof.
  intros H check arg. split.
  - intros Hoct. destruct (oct_key_secret _ _ H Hoct) as (k & Hk & Hkey).
    exists k. split; [done|].
    unfold get_op_key_with, getitem. by rewrite Hoct, Hkey.
  - intros Hne. apply JWK_init_constructed in H as (kty & values & C).
    pose proof (constructed_kty _ _ _ _ C) as Hkty.
    unfold get_op_key_with, getitem. rewrite Hkty in *. simpl.
    rewrite bool_decide_eq_false_2 by congruence.
    eexists. split; [reflexivity | done].
Qed.

(** [get_curve] on an EC key whose curve is not registered. *)
Lemma get_curve_unregistered (self : JWK) (crv : Value) (arg : option string) :
  _params self !! "kty" = Some (VStr "EC") ->
  _key self !! "crv" = Some crv ->
  (forall c, c ∈ keys JWKEllipticCurveRegistry -> crv <> VStr c) ->
  exists msg, get_curve self arg = Raise (InvalidJWKValue msg).
Proof.
  intros Hkty Hcrv Hreg. unfold get_curve, getitem. rewrite Hkty, Hcrv. simpl.
  assert (forall c, c ∈ keys JWKEllipticCurveRegistry ->
                    bool_decide (crv = VStr c) = false) as Hno
    by (intros c Hc; apply bool_decide_eq_false_2; auto).
  destruct (hint arg) as [a|]; simpl.
  - case_bool_decide; simpl; [|eauto].
    rewrite !Hno by (vm_compute; set_solver). eauto.
  - rewrite !Hno by (vm_compute; set_solver). eauto.
Qed.

(** C1: for every EC key whose [crv] field is not a registered curve,
    [get_curve] fails with [InvalidJWKValue], and so does
    [get_op_key('verify')] once the constraint check has passed and the
    coordinates [x] and [y] have been decoded. *)
Theorem C1_unregistered_curve (self : JWK) (crv : Value) :
  _params self !! "kty" = Some (VStr "EC") ->
  _key self !! "crv" = Some crv ->
  (forall c, c ∈ keys JWKEllipticCurveRegistry -> crv <> VStr c) ->
  (forall arg, fails_with (get_curve self arg) KInvalidKeyValue) /\
  (forall arg vx vy x y,
      _check_constraints self "sig" "verify" = Ok tt ->
      _key self !! "x" = Some vx -> _decode_int vx = Ok x ->
      _key self !! "y" = Some vy -> _decode_int vy = Ok y ->
      fails_with (get_op_key self (Some "verify") arg) KInvalidKeyValue).
Proof.
  intros Hkty Hcrv Hreg. split.
  - intros arg.
    destruct (get_curve_unregistered self crv arg Hkty Hcrv Hreg) as [msg Hc].
    exists (InvalidJWKValue msg). by rewrite Hc.
  - intros arg vx vy x y Hcheck Hx Hdx Hy Hdy.
    destruct (get_curve_unregistered self crv arg Hkty Hcrv Hreg) as [msg Hc].
    exists (InvalidJWKValue msg). split; [|done].
    unfold get_op_key, get_op_key_with.
    simpl. rewrite Hcheck. simpl.
    unfold _get_public_key, _ec_pub, getitem.
    rewrite Hkty, Hx, Hy. simpl. rewrite Hdx, Hdy. simpl. by rewrite Hc.
Qed.

(** C2: for every RSA key constructed with the public material fields [n]
    and [e] and no private field, once the constraint check has passed,
    [get_op_key('verify')] returns the provider's public key for the decoded
    exponent and modulus, and [get_op_key('sign')] fails with the [KeyError]
    of the absent field [p]. *)
Theorem C2_rsa_public_only (kwargs : list (string * Value)) (self : JWK)
    (vn ve : Value) (arg : option string) :
  JWK_init kwargs = Ok self ->
  assoc_get "kty" kwargs = Some (VStr "RSA") ->
  assoc_get "n" kwargs = Some vn ->
  assoc_get "e" kwargs = Some ve ->
  (forall name, name ∈ ["d"; "p"; "q"; "dp"; "dq"; "qi"] ->
                assoc_get name kwargs = None) ->
  (_check_constraints self "sig" "verify" = Ok tt ->
   forall e n h,
     _decode_int ve = Ok e -> _decode_int vn = Ok n ->
     rsa_public_key (mkRSAPublicNumbers e n) = Ok h ->
     get_op_key self (Some "verify") arg = Ok (Handle h)) /\
  (_check_constraints self "sig" "sign" = Ok tt ->
   get_op_key self (Some "sign") arg = Raise (KeyError "p")).
Proof.
  intros H Hkty Hn He Hpriv.
  apply JWK_init_constructed in H as (kty & values & C).
  pose proof (c_kty_supplied _ _ _ _ C) as Hk. rewrite Hkty in Hk.
  injection Hk as <-.
  pose proof (constructed_kty _ _ _ _ C) as Hparams.
  pose proof (constructed_values _ _ _ _ C) as Hv.
  vm_compute in Hv. injection Hv as <-.
  pose proof (c_key _ _ _ _ C) as Hkey.
  split.
  - intros Hcheck e n h Hde Hdn Hh.
    unfold get_op_key, get_op_key_with.
    simpl. rewrite Hcheck. simpl.
    unfold _get_public_key, _rsa_pub, getitem.
    rewrite Hparams, !Hkey. simpl.
    rewrite He, Hn. simpl. rewrite Hde. simpl. rewrite Hdn. simpl.
    by rewrite Hh.
  - intros Hcheck.
    unfold get_op_key, get_op_key_with.
    simpl. rewrite Hcheck. simpl.
    unfold _get_private_key, _rsa_pri, getitem.
    rewrite Hparams, !Hkey. simpl.
    rewrite (Hpriv "p") by set_solver. done.
Qed.

End ResolverProperties.

(** ** When construction succeeds *)

Lemma remove_all_sublist (name : string) (names : list string) :
  remove_all name names `sublist_of` names.
Proof.
  induction names as [|x names IH]; simpl; [constructor|].
  case_decide; by constructor.
Qed.

Lemma remove_all_fresh (name : string) (names : list string) :
  name ∉ names -> remove_all name names = names.
Proof.
  induction names as [|x names IH]; simpl; [done|].
  rewrite not_elem_of_cons. intros [Hne Hnot].
  rewrite decide_False by done. by rewrite IH.
Qed.

Lemma remove_all_NoDup_length (name : string) (names : list string) :
  NoDup names -> name ∈ names ->
  S (List.length (remove_all name names)) = List.length names.
Proof.
  induction 1 as [|x names Hx Hnd IH]; [by rewrite elem_of_nil|].
  rewrite elem_of_cons. intros Hin. simpl.
  destruct (decide (x = name)) as [->|Hne].
  - by rewrite remove_all_fresh.
  - simpl. f_equal. apply IH. by destruct Hin as [->|].
Qed.

Lemma extract_sublist (kwargs : list (string * Value))
    (registry : list string) :
  forall m names m' names',
    extract kwargs registry (m, names) = (m', names') ->
    names' `sublist_of` names.
Proof.
  unfold extract.
  induction registry as [|a registry IH]; intros m names m' names' H;
    simpl in H.
  - by injection H as <- <-.
  - unfold extract_step in H at 2. simpl in H.
    destruct (assoc_get a kwargs) as [v|]; [|by eapply IH].
    apply IH in H. etrans; [exact H | apply remove_all_sublist].
Qed.

(** The loop never looks up a name that was not supplied. *)
Lemma unknown_loop_total (kwargs : list (string * Value)) :
  forall fuel i names unknown,
    (forall x, x ∈ names -> x ∈ keys kwargs) ->
    exists r, unknown_loop fuel kwargs i names unknown = Ok r.
Proof.
  induction fuel as [|fuel IH]; intros i names unknown Hsub; simpl; [eauto|].
  destruct (names !! i) as [name|] eqn:Hi; [|eauto].
  assert (name ∈ names) as Hin by (eapply list_elem_of_lookup_2, Hi).
  destruct (assoc_get name kwargs) as [v|] eqn:Hv.
  - apply IH. intros x Hx. apply Hsub.
    by apply elem_of_remove_all in Hx as [? _].
  - apply assoc_get_None in Hv. destruct Hv. by apply Hsub.
Qed.

(** On a list without duplicates the loop stores every second name, from
    the index on, and leaves the others in the list. *)
Lemma unknown_loop_length (kwargs : list (string * Value)) :
  forall fuel i names unknown names' unknown',
    NoDup names ->
    List.length names <= i + fuel ->
    unknown_loop fuel kwargs i names unknown = Ok (names', unknown') ->
    List.length names'
    = List.length names - (List.length names - i + 1) / 2.
Proof.
  assert (forall n i, n <= i -> n = n - (n - i + 1) / 2) as Hstop.
  { intros n i Hle. replace (n - i + 1) with 1 by lia.
    change (1 / 2) with 0. lia. }
  induction fuel as [|fuel IH];
    intros i names unknown names' unknown' Hnd Hlen H; simpl in H.
  - injection H as <- <-. apply Hstop. lia.
  - destruct (names !! i) as [name|] eqn:Hi.
    + destruct (assoc_get name kwargs) as [v|]; [|done].
      pose proof (lookup_lt_Some _ _ _ Hi) as Hlt.
      assert (name ∈ names) as Hin by (eapply list_elem_of_lookup_2, Hi).
      pose proof (remove_all_NoDup_length name names Hnd Hin) as Hrm.
      apply IH in H;
        [|exact (sublist_NoDup _ _ Hnd (remove_all_sublist name names)) | lia].
      rewrite H. clear H IH Hstop.
      set (n := List.length names) in *.
      set (n1 := List.length (remove_all name names)) in *.
      assert (n1 = n - 1) as -> by lia.
      destruct (decide (n - i = 1)) as [Hone|Hmore].
      * replace (n - 1 - S i + 1) with 1 by lia.
        replace (n - i + 1) with 2 by lia.
        change (1 / 2) with 0. change (2 / 2) with 1. lia.
      * replace (n - i + 1) with ((n - 1 - S i + 1) + 1 * 2) by lia.
        rewrite Nat.div_add by lia. lia.
    + injection H as <- <-. apply lookup_ge_None in Hi. by apply Hstop.
Qed.

(** The names struck by the two registry loops, and the run of the last
    loop on what is left. *)
Lemma JWK_init_names (kwargs : list (string * Value)) (self : JWK) :
  JWK_init kwargs = Ok self ->
  exists names,
    names `sublist_of` keys kwargs /\
    (forall x, x ∈ names <-> is_Some (_unknown self !! x)) /\
    unknown_loop (List.length names) kwargs 0 names ∅
    = Ok ([], _unknown self).
Proof.
  unfold JWK_init. intros H.
  destruct (extract kwargs (keys JWKParamsRegistry) (∅, keys kwargs))
    as [params names1] eqn:E1.
  destruct (lookup_kty (params !! "kty")) as [values|]; [|done].
  simpl in H.
  destruct (extract kwargs (keys values) (∅, names1)) as [key names2] eqn:E2.
  destruct (unknown_loop (List.length names2) kwargs 0 names2 ∅)
    as [[names3 unknown]|] eqn:E3; [|done].
  simpl in H.
  destruct names3 as [|n3 names3]; [|done]. simpl in H.
  repeat match type of H with
         | (if ?b then _ else _) = _ => destruct b; [done|]
         end.
  injection H as <-. cbn [_unknown].
  apply extract_sublist in E1, E2.
  assert (names2 `sublist_of` keys kwargs) as Hsub by (by etrans).
  exists names2. split; [done|]. split; [|done].
  apply unknown_loop_spec in E3 as (_ & Hsame & Hstored).
  intros x. split.
  - intros Hx. destruct (Hstored x Hx) as [Hs ->]; [apply not_elem_of_nil|].
    done.
  - intros Hs. destruct (decide (x ∈ names2)) as [|Hout]; [done|].
    rewrite Hsame, lookup_empty in Hs by auto. by destruct Hs.
Qed.

(** A constructed key has at most one extension field. *)
Lemma JWK_init_one_extension (kwargs : list (string * Value)) (self : JWK) :
  NoDup (keys kwargs) ->
  JWK_init kwargs = Ok self ->
  forall x y,
    is_Some (_unknown self !! x) -> is_Some (_unknown self !! y) -> x = y.
Proof.
  intros Hnd H x y Hx Hy.
  destruct (JWK_init_names _ _ H) as (names & Hsub & Hin & Hloop).
  apply Hin in Hx, Hy.
  apply unknown_loop_length in Hloop;
    [|exact (sublist_NoDup _ _ Hnd Hsub) | lia].
  destruct names as [|a [|b names]].
  - by apply elem_of_nil in Hx.
  - apply list_elem_of_singleton in Hx, Hy. congruence.
  - exfalso. cbn [List.length] in Hloop.
    set (n := List.length names) in *.
    replace (S (S n) - 0 + 1) with (n + 1 + 1 * 2) in Hloop by lia.
    rewrite Nat.div_add in Hloop by lia.
    assert ((n + 1) / 2 <= n) as Hhalf; [|lia].
    destruct n as [|n]; [done|].
    apply Nat.Div0.div_le_upper_bound. lia.
Qed.

(** Two distinct extension fields always make construction fail. *)
Lemma JWK_init_two_extensions (kwargs : list (string * Value))
    (x y : string) :
  NoDup (keys kwargs) ->
  x <> y ->
  x ∈ keys kwargs -> y ∈ keys kwargs ->
  x ∉ keys JWKParamsRegistry -> y ∉ keys JWKParamsRegistry ->
  (forall kty values,
      assoc_get kty JWKValuesRegistry = Some values ->
      (x ∉ keys values) /\ (y ∉ keys values)) ->
  forall self, JWK_init kwargs <> Ok self.
Proof.
  intros Hnd Hne Hx Hy Hxp Hyp Hv self H.
  apply Hne, (JWK_init_one_extension kwargs self Hnd H).
  all: apply JWK_init_constructed in H as (kty & values & C).
  all: rewrite (c_unknown _ _ _ _ C).
  all: destruct (Hv kty values (c_values_registered _ _ _ _ C)) as [Hxv Hyv].
  all: rewrite !bool_decide_eq_false_2 by done; simpl.
  all: by apply assoc_get_Some_keys.
Qed.

Lemma values_registry_types (kty : string)
    (values : list (string * (string * visibility))) :
  assoc_get kty JWKValuesRegistry = Some values ->
  kty ∈ keys JWKTypesRegistry.
Proof.
  unfold JWKValuesRegistry. simpl. intros H.
  repeat (case_decide; [subst; vm_compute; set_solver |]).
  done.
Qed.

(** Construction with a registered key type, up to the loop over the
    remaining names. *)
Lemma JWK_init_registered (kwargs : list (string * Value)) (kty : string)
    (values : list (string * (string * visibility))) :
  assoc_get "kty" kwargs = Some (VStr kty) ->
  assoc_get kty JWKValuesRegistry = Some values ->
  exists (params key : gmap string Value) (names : list string),
    (forall name,
        params !! name =
        if bool_decide (name ∈ keys JWKParamsRegistry)
        then assoc_get name kwargs else None) /\
    (forall name,
        key !! name =
        if bool_decide (name ∈ keys values)
        then assoc_get name kwargs else None) /\
    (forall x, x ∈ names <->
               x ∈ keys kwargs /\
               (x ∉ keys JWKParamsRegistry) /\ (x ∉ keys values)) /\
    names `sublist_of` keys kwargs /\
    JWK_init kwargs =
    let* r := unknown_loop (List.length names) kwargs 0 names ∅ in
    let '(names, unknown) := r in
    if negb (Nat.eqb (List.length names) 0) then
      Raise (InvalidJWKValue (UnknownKeyParameters names))
    else if Nat.eqb (size key) 0 then
      Raise (InvalidJWKValue NoKeyValuesFound)
    else if
      match params !! "key_ops" with
      | Some ops => negb (key_ops_ok (iter_value ops))
      | None => false
      end
    then Raise (InvalidJWKValue DuplicateKeyOps)
    else if negb (use_key_ops_ok params) then
      Raise (InvalidJWKValue IncompatibleUseKeyOps)
    else Ok (mkJWK params key unknown).
Proof.
  intros Hkty Hvalues. unfold JWK_init.
  destruct (extract kwargs (keys JWKParamsRegistry) (∅, keys kwargs))
    as [params names1] eqn:E1.
  pose proof (extract_sublist _ _ _ _ _ _ E1) as Hsub1.
  apply extract_empty in E1 as [Hp Hn1]; [|done].
  assert (lookup_kty (params !! "kty") = Ok values) as ->.
  { rewrite Hp, bool_decide_eq_true_2 by (vm_compute; set_solver).
    rewrite Hkty. unfold lookup_kty.
    rewrite bool_decide_eq_true_2 by (by eapply values_registry_types).
    by rewrite Hvalues. }
  cbn [bind].
  destruct (extract kwargs (keys values) (∅, names1)) as [key names2] eqn:E2.
  pose proof (extract_sublist _ _ _ _ _ _ E2) as Hsub2.
  apply extract_empty in E2 as [Hkey Hn2];
    [|intros x Hx; by apply Hn1 in Hx as [? _]].
  exists params, key, names2.
  split; [done|]. split; [done|]. split; [|split; [by etrans | done]].
  intros x. rewrite Hn2, Hn1. tauto.
Qed.

(** With a registered key type and no material field, construction fails
    with [InvalidJWKValue]. *)
Lemma JWK_init_no_material (kwargs : list (string * Value)) (kty : string)
    (values : list (string * (string * visibility))) :
  assoc_get "kty" kwargs = Some (VStr kty) ->
  assoc_get kty JWKValuesRegistry = Some values ->
  (forall name, name ∈ keys values -> assoc_get name kwargs = None) ->
  fails_with (JWK_init kwargs) KInvalidKeyValue.
Proof.
  intros Hkty Hvalues Hnone.
  destruct (JWK_init_registered _ _ _ Hkty Hvalues)
    as (params & key & names & Hp & Hkey & Hn & Hsub & ->).
  destruct (unknown_loop_total kwargs (List.length names) 0 names ∅)
    as [[names' unknown] ->]; [intros x Hx; by apply Hn in Hx as [? _]|].
  cbn [bind].
  destruct names' as [|n names']; simpl.
  - assert (key = ∅) as ->.
    { apply map_eq. intros name. rewrite Hkey, lookup_empty.
      case_bool_decide; [by apply Hnone | done]. }
    rewrite map_size_empty. simpl. eexists. split; [reflexivity | done].
  - eexists. split; [reflexivity | done].
Qed.

(** With a registered key type, at least one material field, at most one
    extension field and metadata that passes the [key_ops] checks,
    construction succeeds. *)
Lemma JWK_init_accepts (kwargs : list (string * Value)) (kty : string)
    (values : list (string * (string * visibility))) :
  NoDup (keys kwargs) ->
  assoc_get "kty" kwargs = Some (VStr kty) ->
  assoc_get kty JWKValuesRegistry = Some values ->
  (forall x y,
      x ∈ keys kwargs -> y ∈ keys kwargs ->
      x ∉ keys JWKParamsRegistry -> x ∉ keys values ->
      y ∉ keys JWKParamsRegistry -> y ∉ keys values -> x = y) ->
  (exists name, name ∈ keys values /\ is_Some (assoc_get name kwargs)) ->
  (forall ops, assoc_get "key_ops" kwargs = Some ops ->
               key_ops_ok (iter_value ops) = true) ->
  use_key_ops_ok (list_to_map kwargs) = true ->
  exists self, JWK_init kwargs = Ok self.
Proof.
  intros Hnd Hkty Hvalues Hone (name & Hname & v & Hv) Hops Huse.
  destruct (JWK_init_registered _ _ _ Hkty Hvalues)
    as (params & key & names & Hp & Hkey & Hn & Hsub & ->).
  assert (exists unknown,
             unknown_loop (List.length names) kwargs 0 names ∅
             = Ok ([], unknown)) as [unknown ->].
  { pose proof (sublist_NoDup _ _ Hnd Hsub) as Hnd'.
    destruct names as [|a [|b names]].
    - by eexists.
    - assert (a ∈ keys kwargs) as Ha by (apply Hn; left).
      apply assoc_get_Some_keys in Ha as [va Ha].
      simpl. rewrite Ha. simpl. rewrite decide_True by done. by eexists.
    - exfalso. apply NoDup_cons in Hnd' as [Hab _]. apply Hab.
      assert (a ∈ a :: b :: names) as Ha by left.
      assert (b ∈ a :: b :: names) as Hb by (right; left).
      apply Hn in Ha as (? & ? & ?), Hb as (? & ? & ?).
      rewrite (Hone a b) by done. left. }
  cbn [bind]. simpl.
  assert (size key <> 0) as Hsize.
  { intros Hz. apply map_size_empty_iff in Hz.
    pose proof (Hkey name) as Hk.
    rewrite bool_decide_eq_true_2, Hv, Hz, lookup_empty in Hk by done.
    done. }
  apply Nat.eqb_neq in Hsize. rewrite Hsize.
  assert (params !! "key_ops" = assoc_get "key_ops" kwargs) as Hko
    by (rewrite Hp; by rewrite bool_decide_eq_true_2
                         by (vm_compute; set_solver)).
  assert (params !! "use" = assoc_get "use" kwargs) as Hu
    by (rewrite Hp; by rewrite bool_decide_eq_true_2
                         by (vm_compute; set_solver)).
  assert (use_key_ops_ok params = true) as ->.
  { unfold use_key_ops_ok in *.
    by rewrite Hko, Hu, <- !lookup_list_to_map. }
  rewrite Hko. destruct (assoc_get "key_ops" kwargs) as [ops|] eqn:Hk.
  - rewrite (Hops ops) by done. simpl. by eexists.
  - simpl. by eexists.
Qed.

(** ** The example keys are what construction builds *)

Lemma oct_key_init :
  JWK_init Examples.oct_fields = Ok Examples.oct_key.
Proof. vm_compute. reflexivity. Qed.

Lemma oct_extension_key_init :
  JWK_init Examples.oct_extension_fields = Ok Examples.oct_extension_key.
Proof. vm_compute. reflexivity. Qed.

Lemma oct_no_ops_key_init :
  JWK_init Examples.oct_no_ops_fields = Ok Examples.oct_no_ops_key.
Proof. vm_compute. reflexivity. Qed.

Lemma oct_no_use_key_init :
  JWK_init Examples.oct_no_use_fields = Ok Examples.oct_no_use_key.
Proof. vm_compute. reflexivity. Qed.

Lemma oct_enc_key_init :
  JWK_init Examples.oct_enc_fields = Ok Examples.oct_enc_key.
Proof. vm_compute. reflexivity. Qed.

Lemma oct_derive_key_init :
  JWK_init Examples.oct_derive_fields = Ok Examples.oct_derive_key.
Proof. vm_compute. reflexivity. Qed.

Lemma rsa_key_init :
  JWK_init Examples.rsa_public_fields = Ok Examples.rsa_key.
Proof. vm_compute. reflexivity. Qed.

Lemma ec_p192_key_init :
  JWK_init Examples.ec_p192_fields = Ok Examples.ec_p192_key.
Proof. vm_compute. reflexivity. Qed.

(** ** The statements at the example keys *)

Import Examples.

Lemma C5_partition_witness :
  JWK_init oct_extension_fields = Ok oct_extension_key /\
  (_params oct_extension_key !! "kty" = Some (VStr "oct") /\
   _key oct_extension_key !! "kty" = None /\
   _unknown oct_extension_key !! "kty" = None) /\
  (_params oct_extension_key !! "k" = None /\
   _key oct_extension_key !! "k" = Some (VStr "AQAB") /\
   _unknown oct_extension_key !! "k" = None) /\
  (_params oct_extension_key !! "foo" = None /\
   _key oct_extension_key !! "foo" = None /\
   _unknown oct_extension_key !! "foo" = Some (VStr "1")).
Proof.
  split; [exact oct_extension_key_init|].
  destruct (C5_partition _ _ oct_extension_key_init)
    as (kty & values & Hkty & Hvalues & Hsupplied & _).
  vm_compute in Hkty. injection Hkty as <-.
  vm_compute in Hvalues. injection Hvalues as <-.
  split; [exact (Hsupplied "kty" (VStr "oct") eq_refl)|].
  split; [exact (Hsupplied "k" (VStr "AQAB") eq_refl)|].
  exact (Hsupplied "foo" (VStr "1") eq_refl).
Defined.


Lemma C3_export_round_trip_witness :
  JWK_init oct_extension_fields = Ok oct_extension_key /\
  exists d : gmap string Value,
    Ok (export (fun d => d) oct_extension_key) = Ok d /\
    forall name, d !! name = assoc_get name oct_extension_fields.
Proof.
  split; [exact oct_extension_key_init|].
  apply (C3_export_round_trip (fun d => d) Ok (fun d => eq_refl)).
  exact oct_extension_key_init.
Defined.

Lemma C9_decode_int_witness :
  base64url_decode (VStr "AQAB") = Ok [x01; x00; x01] /\
  _decode_int (collaborators := Concrete.collaborators) (VStr "AQAB")
  = Ok 65537%Z /\
  base64url_decode (VStr "") = Ok [] /\
  _decode_int (collaborators := Concrete.collaborators) (VStr "")
  = Raise ValueError.
Proof.
  split; [reflexivity|].
  destruct (C9_decode_int (collaborators := Concrete.collaborators)
              (VStr "AQAB") [x01; x00; x01] eq_refl) as [Hvalue _].
  destruct (Hvalue ltac:(discriminate)) as [H _].
  split; [exact H|]. split; [reflexivity|].
  destruct (C9_decode_int (collaborators := Concrete.collaborators)
              (VStr "") [] eq_refl) as [_ Hempty].
  exact (Hempty eq_refl).
Defined.

Lemma C8_oct_same_secret_witness :
  JWK_init oct_fields = Ok oct_key /\
  _check_constraints oct_key "enc" "encrypt" = Ok tt /\
  _check_constraints oct_key "enc" "decrypt" = Ok tt /\
  exists k,
    assoc_get "k" oct_fields = Some k /\
    get_op_key (collaborators := Concrete.collaborators)
      oct_key (Some "encrypt") None = Ok (Raw k) /\
    get_op_key (collaborators := Concrete.collaborators)
      oct_key (Some "decrypt") None = Ok (Raw k).
Proof.
  split; [exact oct_key_init|].
  split; [reflexivity|]. split; [reflexivity|].
  apply (C8_oct_same_secret oct_fields oct_key "enc" "encrypt" "enc" "decrypt").
  - exact oct_key_init.
  - reflexivity.
  - apply list_elem_of_In. simpl. right. left. reflexivity.
  - apply list_elem_of_In. simpl. right. left. reflexivity.
  - reflexivity.
  - reflexivity.
Defined.

Lemma C10_no_operation_witness :
  JWK_init oct_derive_fields = Ok oct_derive_key /\
  (forall usage operation,
      (usage, operation) ∈ (public_operations ++ private_operations)%list ->
      fails_with (_check_constraints oct_derive_key usage operation)
        KInvalidOperation) /\
  (exists k,
    assoc_get "k" oct_derive_fields = Some k /\
    get_op_key (collaborators := Concrete.collaborators)
      oct_derive_key None None = Ok (Raw k)) /\
  fails_with (get_op_key (collaborators := Concrete.collaborators)
                rsa_key None None) KInvalidOperation.
Proof.
  split; [exact oct_derive_key_init|]. split; [|split].
  - intros usage operation Hin.
    apply list_elem_of_In in Hin. simpl in Hin.
    repeat (destruct Hin as [Hin|Hin];
            [injection Hin as <- <-; eexists;
             split; [vm_compute; reflexivity | reflexivity] |]).
    destruct Hin.
  - apply (C10_no_operation oct_derive_fields oct_derive_key
             oct_derive_key_init (_check_constraints oct_derive_key) None).
    reflexivity.
  - apply (C10_no_operation rsa_public_fields rsa_key
             rsa_key_init (_check_constraints rsa_key) None).
    discriminate.
Defined.

Lemma C1_unregistered_curve_witness :
  JWK_init ec_p192_fields = Ok ec_p192_key /\
  fails_with (get_curve ec_p192_key None) KInvalidKeyValue /\
  fails_with (get_op_key (collaborators := Concrete.collaborators)
                ec_p192_key (Some "verify") None) KInvalidKeyValue.
Proof.
  split; [exact ec_p192_key_init|].
  destruct (C1_unregistered_curve (collaborators := Concrete.collaborators)
              ec_p192_key (VStr "P-192") eq_refl eq_refl) as [Hcurve Hverify].
  - intros c Hc. apply list_elem_of_In in Hc. simpl in Hc.
    intuition (subst; discriminate).
  - split; [apply Hcurve|].
    apply (Hverify None (VStr "AQAB") (VStr "AQAD") 65537%Z 65539%Z);
      reflexivity.
Defined.

Lemma C2_rsa_public_only_witness :
  JWK_init rsa_public_fields = Ok rsa_key /\
  get_op_key (collaborators := Concrete.collaborators)
    rsa_key (Some "verify") None
  = Ok (Handle (Concrete.RSAPublicKey (mkRSAPublicNumbers 65537 65539))) /\
  get_op_key (collaborators := Concrete.collaborators)
    rsa_key (Some "sign") None
  = Raise (KeyError "p").
Proof.
  split; [exact rsa_key_init|].
  destruct (C2_rsa_public_only (collaborators := Concrete.collaborators)
              rsa_public_fields rsa_key (VStr "AQAD") (VStr "AQAB") None
              rsa_key_init eq_refl eq_refl eq_refl) as [Hverify Hsign].
  - intros name Hin. apply list_elem_of_In in Hin. simpl in Hin.
    intuition (subst; reflexivity).
  - split; [|apply Hsign; reflexivity].
    apply (Hverify eq_refl 65537%Z 65539%Z); reflexivity.
Defined.

(** ** Where the code departs from the stated behaviour *)


(** An unregistered curve is reported as [InvalidJWKValue], not as
    [InvalidJWKType]. *)
Lemma C1_counterexample :
  JWK_init ec_p192_fields = Ok ec_p192_key /\
  _key ec_p192_key !! "crv" = Some (VStr "P-192") /\
  ("P-192" ∉ keys JWKEllipticCurveRegistry) /\
  get_curve ec_p192_key None = Raise (InvalidJWKValue UnknownCurveType) /\
  get_op_key (collaborators := Concrete.collaborators)
    ec_p192_key (Some "verify") None
  = Raise (InvalidJWKValue UnknownCurveType) /\
  ~ fails_with (get_curve ec_p192_key None) KInvalidKeyType /\
  ~ fails_with (get_op_key (collaborators := Concrete.collaborators)
                  ec_p192_key (Some "verify") None) KInvalidKeyType.
Proof.
  split; [exact ec_p192_key_init|].
  split; [reflexivity|].
  split; [vm_compute; set_solver|].
  split; [reflexivity|]. split; [reflexivity|].
  split; intros (e & He & Hk); vm_compute in He; injection He as <-;
    discriminate Hk.
Qed.

(** Signing with a public-only RSA key fails on the absent field [p] with
    [KeyError], not with [InvalidJWKValue]. *)
Lemma C2_counterexample :
  JWK_init rsa_public_fields = Ok rsa_key /\
  get_op_key (collaborators := Concrete.collaborators)
    rsa_key (Some "sign") None = Raise (KeyError "p") /\
  ~ fails_with (get_op_key (collaborators := Concrete.collaborators)
                  rsa_key (Some "sign") None) KInvalidKeyValue.
Proof.
  split; [exact rsa_key_init|]. split; [reflexivity|].
  intros (e & He & Hk). vm_compute in He. injection He as <-.
  discriminate Hk.
Qed.

(** A declared but empty [key_ops] does not contain the requested operation
    and yet rejects nothing; a declared but empty [use] differs from the
    requested usage and yet rejects nothing; and when [use] already rejects
    the request, [key_ops] is not consulted. *)
Lemma C4_counterexample :
  (JWK_init oct_no_ops_fields = Ok oct_no_ops_key /\
   _params oct_no_ops_key !! "key_ops" = Some (VList []) /\
   (VStr "sign" ∉ as_list (VList [])) /\
   _check_constraints oct_no_ops_key "sig" "sign" = Ok tt /\
   ~ fails_with (_check_constraints oct_no_ops_key "sig" "sign")
       KInvalidOperation) /\
  (JWK_init oct_no_use_fields = Ok oct_no_use_key /\
   _params oct_no_use_key !! "use" = Some (VStr "") /\
   VStr "" <> VStr "sig" /\
   _check_constraints oct_no_use_key "sig" "sign" = Ok tt /\
   ~ fails_with (_check_constraints oct_no_use_key "sig" "sign")
       KInvalidUsage) /\
  (JWK_init oct_enc_fields = Ok oct_enc_key /\
   _params oct_enc_key !! "key_ops" = Some (VList ["encrypt"]) /\
   (VStr "sign" ∉ as_list (VList ["encrypt"])) /\
   _check_constraints oct_enc_key "sig" "sign"
   = Raise (InvalidJWKUsage "sig" (VStr "enc")) /\
   ~ fails_with (_check_constraints oct_enc_key "sig" "sign")
       KInvalidOperation).
Proof.
  split; [|split].
  - split; [exact oct_no_ops_key_init|]. split; [reflexivity|].
    split; [simpl; apply not_elem_of_nil|]. split; [reflexivity|].
    intros (e & He & _). discriminate He.
  - split; [exact oct_no_use_key_init|]. split; [reflexivity|].
    split; [discriminate|]. split; [reflexivity|].
    intros (e & He & _). discriminate He.
  - split; [exact oct_enc_key_init|]. split; [reflexivity|].
    split; [simpl; set_solver|]. split; [reflexivity|].
    intros (e & He & Hk). vm_compute in He. injection He as <-.
    discriminate Hk.
Qed.

(** The empty string decodes to the empty octet string, whose big-endian
    value is zero; [_decode_int] raises [ValueError] on it. *)
Lemma C9_counterexample :
  base64url_decode (VStr "") = Ok [] /\
  be_value [] = 0%Z /\
  _decode_int (collaborators := Concrete.collaborators) (VStr "")
  = Raise ValueError /\
  _decode_int (collaborators := Concrete.collaborators) (VStr "")
  <> Ok (be_value []).
Proof.
  split; [reflexivity|]. split; [reflexivity|]. split; [reflexivity|].
  discriminate.
Qed.

(** C7: a registered key type, a valid material field and no metadata
    beyond [kty], with two extension fields: the loop that stores the
    extension fields removes from the list it iterates over, skips the
    second name, and construction fails with [InvalidJWKValue]. *)
Theorem C7_two_extension_fields :
  ("oct" ∈ keys JWKTypesRegistry) /\
  assoc_get "k" two_extension_fields = Some (VStr "AQAB") /\
  unknown_loop 2 two_extension_fields 0 ["foo"; "bar"] ∅
  = Ok (["bar"], {[ "foo" := VStr "1" ]}) /\
  JWK_init two_extension_fields
  = Raise (InvalidJWKValue (UnknownKeyParameters ["bar"])).
Proof.
  split; [vm_compute; set_solver|]. split; [reflexivity|].
  split; vm_compute; reflexivity.
Qed.

(** * Further properties of the code *)

(** ** Duplicate operations *)

Lemma count_eq_cons (ko a : string) (ops : list string) :
  count_eq ko (a :: ops)
  = (if bool_decide (ko = a) then 1 else 0) + count_eq ko ops.
Proof. unfold count_eq. simpl. by destruct (bool_decide (ko = a)). Qed.

Lemma count_eq_fresh (ko : string) (ops : list string) :
  count_eq ko ops = 0 <-> ko ∉ ops.
Proof.
  induction ops as [|a ops IH].
  - split; [intros _; apply not_elem_of_nil | done].
  - rewrite count_eq_cons, not_elem_of_cons, <- IH.
    case_bool_decide; split; try lia; naive_solver.
Qed.

(** The nested counting loops accept a sequence exactly when no entry
    occurs twice. *)
Lemma key_ops_ok_NoDup (ops : list string) :
  key_ops_ok ops = true <-> NoDup ops.
Proof.
  unfold key_ops_ok. rewrite forallb_forall.
  setoid_rewrite <- list_elem_of_In. setoid_rewrite Nat.eqb_eq.
  induction ops as [|a ops IH].
  - split; [constructor | intros _ x Hx; by apply elem_of_nil in Hx].
  - rewrite NoDup_cons, <- IH, <- count_eq_fresh. split.
    + intros H. split.
      * specialize (H a ltac:(left)). rewrite count_eq_cons in H.
        rewrite bool_decide_eq_true_2 in H by done. lia.
      * intros x Hx. pose proof (H x ltac:(by right)) as Hc.
        rewrite count_eq_cons in Hc.
        assert (count_eq x ops <> 0) by (by rewrite count_eq_fresh; auto).
        lia.
    + intros [Ha H] x Hx. rewrite count_eq_cons.
      apply elem_of_cons in Hx as [->|Hx].
      * rewrite bool_decide_eq_true_2 by done. lia.
      * rewrite bool_decide_eq_false_2; [by rewrite H|].
        intros ->. by apply count_eq_fresh in Ha.
Qed.

(** ** Exactly when construction succeeds *)

Lemma keys_fmap {V : Type} (d : list (string * V)) : keys d = d.*1.
Proof. induction d as [|[n v] d IH]; simpl; [done | by f_equal]. Qed.

Lemma assoc_get_Permutation (d d' : list (string * Value)) (name : string) :
  NoDup (keys d) -> d ≡ₚ d' -> assoc_get name d = assoc_get name d'.
Proof.
  intros Hnd Hperm. rewrite <- !lookup_list_to_map.
  rewrite keys_fmap in Hnd. by rewrite (list_to_map_proper d d').
Qed.

Lemma use_key_ops_ok_ext (m1 m2 : gmap string Value) :
  m1 !! "use" = m2 !! "use" -> m1 !! "key_ops" = m2 !! "key_ops" ->
  use_key_ops_ok m1 = use_key_ops_ok m2.
Proof. unfold use_key_ops_ok. by intros -> ->. Qed.

Lemma constructed_metadata kwargs kty values self (name : string) :
  constructed kwargs kty values self ->
  name ∈ keys JWKParamsRegistry ->
  _params self !! name = assoc_get name kwargs.
Proof.
  intros C Hin. rewrite (c_params _ _ _ _ C).
  by rewrite bool_decide_eq_true_2.
Qed.

(** What a successful construction required of the supplied fields. *)
Lemma JWK_init_requires (kwargs : list (string * Value)) (self : JWK) :
  NoDup (keys kwargs) ->
  JWK_init kwargs = Ok self ->
  exists kty values,
    constructed kwargs kty values self /\
    (exists name, name ∈ keys values /\ is_Some (assoc_get name kwargs)) /\
    (forall x y,
        x ∈ keys kwargs -> y ∈ keys kwargs ->
        x ∉ keys JWKParamsRegistry -> x ∉ keys values ->
        y ∉ keys JWKParamsRegistry -> y ∉ keys values -> x = y) /\
    (forall ops, assoc_get "key_ops" kwargs = Some ops ->
                 key_ops_ok (iter_value ops) = true) /\
    use_key_ops_ok (list_to_map kwargs) = true.
Proof.
  intros Hnd H.
  destruct (JWK_init_constructed _ _ H) as (kty & values & C).
  exists kty, values. split; [done|]. split; [|split; [|split]].
  - destruct (constructed_material _ _ _ _ C) as (name & v & Hin & Hv & _).
    exists name. by rewrite Hv.
  - intros x y Hx Hy Hxp Hxv Hyp Hyv.
    apply (JWK_init_one_extension kwargs self Hnd H);
      rewrite (c_unknown _ _ _ _ C), !bool_decide_eq_false_2 by done;
      by apply assoc_get_Some_keys.
  - intros ops Hops. apply (c_key_ops _ _ _ _ C).
    rewrite (constructed_metadata _ _ _ _ "key_ops" C); [done|].
    vm_compute. set_solver.
  - rewrite <- (c_use_key_ops _ _ _ _ C).
    apply use_key_ops_ok_ext; rewrite lookup_list_to_map; symmetry;
      eapply constructed_metadata; eauto; vm_compute; set_solver.
Qed.


(** X2: the constructed key does not depend on the order in which the
    keyword arguments are iterated: if construction succeeds on arguments
    with distinct names, it succeeds with the same key on every
    permutation of them. *)
Theorem X2_construction_order_independent
    (kwargs kwargs' : list (string * Value)) (self : JWK) :
  NoDup (keys kwargs) ->
  kwargs ≡ₚ kwargs' ->
  JWK_init kwargs = Ok self ->
  JWK_init kwargs' = Ok self.
Proof.
  intros Hnd Hperm H.
  destruct (JWK_init_requires _ _ Hnd H)
    as (kty & values & C & Hmat & Hone & Hops & Huse).
  assert (forall name, assoc_get name kwargs' = assoc_get name kwargs) as Hget
    by (intros name; symmetry; by apply assoc_get_Permutation).
  assert (keys kwargs ≡ₚ keys kwargs') as Hkeys
    by (unfold keys; by rewrite Hperm).
  assert (exists self', JWK_init kwargs' = Ok self') as [self' H'].
  { apply (JWK_init_accepts kwargs' kty values).
    - by rewrite <- Hkeys.
    - rewrite Hget. apply (c_kty_supplied _ _ _ _ C).
    - apply (c_values_registered _ _ _ _ C).
    - intros x y Hx Hy. rewrite <- Hkeys in Hx, Hy. by apply Hone.
    - destruct Hmat as (name & Hin & Hs). exists name. by rewrite Hget.
    - intros ops. rewrite Hget. apply Hops.
    - rewrite <- Huse. apply use_key_ops_ok_ext;
        by rewrite !lookup_list_to_map, Hget. }
  rewrite H'. f_equal.
  destruct (JWK_init_constructed _ _ H') as (kty' & values' & C').
  assert (kty' = kty) as ->.
  { pose proof (c_kty_supplied _ _ _ _ C') as Hk.
    rewrite Hget, (c_kty_supplied _ _ _ _ C) in Hk. by injection Hk. }
  assert (values' = values) as ->.
  { pose proof (c_values_registered _ _ _ _ C') as Hv.
    rewrite (c_values_registered _ _ _ _ C) in Hv. by injection Hv. }
  destruct self as [p k u], self' as [p' k' u'].
  pose proof (c_params _ _ _ _ C) as Hp. pose proof (c_params _ _ _ _ C') as Hp'.
  pose proof (c_key _ _ _ _ C) as Hk. pose proof (c_key _ _ _ _ C') as Hk'.
  pose proof (c_unknown _ _ _ _ C) as Hu.
  pose proof (c_unknown _ _ _ _ C') as Hu'.
  cbn [_params _key _unknown] in *.
  f_equal; apply map_eq; intros name.
  - by rewrite Hp, Hp', Hget.
  - by rewrite Hk, Hk', Hget.
  - by rewrite Hu, Hu', Hget.
Qed.

(** ** What a constructed key looks like *)

Lemma existsb_false {A : Type} (f : A -> bool) (l : list A) :
  existsb f l = false -> forall x, x ∈ l -> f x = false.
Proof.
  induction l as [|a l IH]; simpl; intros H x Hx.
  - by apply elem_of_nil in Hx.
  - apply orb_false_elim in H as [Ha Hl].
    apply elem_of_cons in Hx as [->|Hx]; auto.
Qed.

(** X3: in a constructed key, no entry of a declared [key_ops] occurs twice
    (for a lone string: no character does), and when [use] is also declared,
    a key for signatures holds none of the encryption operations and a key
    for encryption holds neither [sign] nor [verify]. *)
Theorem X3_key_ops_invariant (kwargs : list (string * Value)) (self : JWK)
    (ops : Value) :
  JWK_init kwargs = Ok self ->
  _params self !! "key_ops" = Some ops ->
  NoDup (iter_value ops) /\
  (_params self !! "use" = Some (VStr "sig") ->
   forall op, op ∈ encl -> value_contains op ops = false) /\
  (_params self !! "use" = Some (VStr "enc") ->
   forall op, op ∈ sigl -> value_contains op ops = false).
Proof.
  intros H Hops. apply JWK_init_constructed in H as (kty & values & C).
  split; [by apply key_ops_ok_NoDup, (c_key_ops _ _ _ _ C)|].
  pose proof (c_use_key_ops _ _ _ _ C) as Huse.
  unfold use_key_ops_ok in Huse. rewrite Hops in Huse.
  split; intros Hu; rewrite Hu in Huse; simpl in Huse.
  - apply negb_true_iff in Huse. by apply existsb_false.
  - apply negb_true_iff in Huse. by apply existsb_false.
Qed.

(** X4: on a constructed key, [key_type] is the supplied [kty], a string of
    the key-type registry, and [key_id] is the supplied [kid], or [None]
    when none was supplied. *)
Theorem X4_key_type_key_id (kwargs : list (string * Value)) (self : JWK) :
  JWK_init kwargs = Ok self ->
  (exists kty, key_type self = Some (VStr kty) /\
               kty ∈ keys JWKTypesRegistry /\
               assoc_get "kty" kwargs = Some (VStr kty)) /\
  key_id self = assoc_get "kid" kwargs.
Proof.
  intros H. apply JWK_init_constructed in H as (kty & values & C). split.
  - exists kty. split; [apply (constructed_kty _ _ _ _ C)|].
    split; [apply (c_kty_registered _ _ _ _ C)|].
    apply (c_kty_supplied _ _ _ _ C).
  - apply (constructed_metadata _ _ _ _ "kid" C). vm_compute. set_solver.
Qed.

(** X5: a key constructed from arguments with distinct names holds at least
    one material field, every material field belongs to the vocabulary of
    its key type, and it holds at most one extension field. *)
Theorem X5_material_and_extension (kwargs : list (string * Value))
    (self : JWK) :
  NoDup (keys kwargs) ->
  JWK_init kwargs = Ok self ->
  exists kty values,
    key_type self = Some (VStr kty) /\
    assoc_get kty JWKValuesRegistry = Some values /\
    (exists name v, name ∈ keys values /\ _key self !! name = Some v) /\
    (forall name, is_Some (_key self !! name) -> name ∈ keys values) /\
    (forall x y, is_Some (_unknown self !! x) ->
                 is_Some (_unknown self !! y) -> x = y).
Proof.
  intros Hnd H.
  destruct (JWK_init_constructed _ _ H) as (kty & values & C).
  exists kty, values.
  split; [apply (constructed_kty _ _ _ _ C)|].
  split; [apply (c_values_registered _ _ _ _ C)|].
  split; [|split].
  - destruct (constructed_material _ _ _ _ C) as (name & v & Hin & _ & Hv).
    eauto.
  - intros name Hs. rewrite (c_key _ _ _ _ C) in Hs.
    case_bool_decide; [done | by destruct Hs].
  - by apply (JWK_init_one_extension kwargs self).
Qed.

(** ** How construction fails *)




(** ** Curve selection *)

Lemma curve_chain_Ok (crv : Value) (c : curve) :
  (if bool_decide (crv = VStr "P-256") then Ok SECP256R1
   else if bool_decide (crv = VStr "P-384") then Ok SECP384R1
   else if bool_decide (crv = VStr "P-521") then Ok SECP521R1
   else Raise (InvalidJWKValue UnknownCurveType)) = Ok c <->
  exists name,
    crv = VStr name /\
    (name, c) ∈ [("P-256", SECP256R1); ("P-384", SECP384R1);
                 ("P-521", SECP521R1)].
Proof.
  split.
  - repeat case_bool_decide; try done; subst crv; intros [= <-];
      eexists; (split; [reflexivity|]); set_solver.
  - intros (name & -> & Hin). apply list_elem_of_In in Hin. simpl in Hin.
    destruct Hin as [[= <- <-]|[[= <- <-]|[[= <- <-]|[]]]]; reflexivity.
Qed.

Lemma get_curve_Ok_iff (self : JWK) (arg : option string) (c : curve) :
  get_curve self arg = Ok c <->
  _params self !! "kty" = Some (VStr "EC") /\
  exists name,
    _key self !! "crv" = Some (VStr name) /\
    (name, c) ∈ [("P-256", SECP256R1); ("P-384", SECP384R1);
                 ("P-521", SECP521R1)] /\
    (forall a, arg = Some a -> a = "" \/ a = name).
Proof.
  unfold get_curve, getitem.
  destruct (_params self !! "kty") as [kty|]; simpl; [|split; [done|]].
  2: { by intros [? _]. }
  case_bool_decide as Hkty; simpl.
  2: { split; [done|]. intros [[= ->] _]. done. }
  subst kty.
  destruct (_key self !! "crv") as [crv|]; simpl.
  2: { destruct (hint arg); simpl; (split; [done|]);
         by intros (_ & name & ? & _). }
  destruct arg as [a|]; unfold hint; [case_bool_decide as Ha|]; simpl.
  - subst a. rewrite curve_chain_Ok. split.
    + intros (name & -> & Hin). split; [done|]. exists name.
      split; [done|]. split; [done|]. intros a [= <-]. by left.
    + intros (_ & name & [= ->] & Hin & _). eauto.
  - case_bool_decide as Hcrv; simpl.
    + rewrite curve_chain_Ok. subst crv. split.
      * intros (name & [= <-] & Hin). split; [done|]. exists a.
        split; [done|]. split; [done|]. intros ? [= <-]. by right.
      * intros (_ & name & [= ->] & Hin & _). eauto.
    + split; [done|]. intros (_ & name & [= ->] & _ & Hhint).
      destruct (Hhint a eq_refl) as [->| ->]; done.
  - rewrite curve_chain_Ok. split.
    + intros (name & -> & Hin). split; [done|]. exists name.
      split; [done|]. split; [done|]. done.
    + intros (_ & name & [= ->] & Hin & _). eauto.
Qed.

(** X7: [get_curve] returns a curve exactly when the key is an EC key whose
    [crv] is one of P-256, P-384 and P-521, and the requested curve is
    absent, empty or equal to [crv]; the curve returned is the one [crv]
    names. *)
Theorem X7_get_curve_succeeds_iff (self : JWK) (arg : option string)
    (c : curve) :
  get_curve self arg = Ok c <->
  _params self !! "kty" = Some (VStr "EC") /\
  exists name,
    _key self !! "crv" = Some (VStr name) /\
    (name, c) ∈ [("P-256", SECP256R1); ("P-384", SECP384R1);
                 ("P-521", SECP521R1)] /\
    (forall a, arg = Some a -> a = "" \/ a = name).
Proof. apply get_curve_Ok_iff. Qed.

(** X8: [get_curve] on a key that is not an EC key raises [InvalidJWKType];
    on an EC key, a requested curve that is not empty and differs from
    [crv] raises [InvalidJWKValue] reporting both, whether or not [crv] is a
    registered curve. *)
Theorem X8_get_curve_rejects (self : JWK) (arg : option string) :
  (forall kty,
      _params self !! "kty" = Some kty -> kty <> VStr "EC" ->
      get_curve self arg
      = Raise (InvalidJWKType (Some (VStr "Not an EC key")))) /\
  (forall a crv,
      _params self !! "kty" = Some (VStr "EC") ->
      _key self !! "crv" = Some crv ->
      arg = Some a -> a <> "" -> crv <> VStr a ->
      get_curve self arg = Raise (InvalidJWKValue (CurveMismatch a crv))).
Proof.
  unfold get_curve, getitem. split.
  - intros kty -> Hne. simpl. by rewrite bool_decide_eq_false_2.
  - intros a crv -> -> -> Ha Hcrv. simpl. unfold hint.
    rewrite bool_decide_eq_false_2 by done. simpl.
    by rewrite bool_decide_eq_false_2.
Qed.

(** ** Operation dispatch *)

Lemma check_constraints_Ok (self : JWK) (usage operation : string) :
  _check_constraints self usage operation = Ok tt ->
  (forall use, _params self !! "use" = Some use ->
               truthy use = true -> use = VStr usage) /\
  (forall ops, _params self !! "key_ops" = Some ops ->
               truthy ops = true -> VStr operation ∈ as_list ops).
Proof.
  unfold _check_constraints.
  destruct (_params self !! "use") as [use|];
    destruct (_params self !! "key_ops") as [ops|]; simpl;
    check_guards; intros H; try discriminate H;
    split; intros ? [= <-] ?; congruence.
Qed.

Section Dispatch.

Context {handle : Type} {collaborators : Collaborators handle}.

(** X9: when [use] is declared with a non-empty value, each of the six
    operations that [get_op_key] serves is refused for every other usage
    category: the call raises [InvalidJWKUsage] with the requested and the
    declared usage, and no material is resolved. *)
Theorem X9_usage_gate (self : JWK) (use : Value) (usage operation : string)
    (arg : option string) :
  (usage, operation) ∈ (public_operations ++ private_operations)%list ->
  _params self !! "use" = Some use ->
  truthy use = true ->
  use <> VStr usage ->
  get_op_key self (Some operation) arg = Raise (InvalidJWKUsage usage use).
Proof.
  intros Hin Huse Ht Hne.
  assert (_check_constraints self usage operation
          = Raise (InvalidJWKUsage usage use)) as Hcheck.
  { unfold _check_constraints. rewrite Huse, Ht. simpl.
    by rewrite bool_decide_eq_false_2. }
  unfold get_op_key. apply elem_of_app in Hin as [Hin|Hin].
  - by rewrite (get_op_key_public _ _ _ _ _ Hin), Hcheck.
  - by rewrite (get_op_key_private _ _ _ _ _ Hin), Hcheck.
Qed.

(** X10: [get_op_key] returns a key for a named operation only if the
    operation is one of the six it serves, a non-empty declared [use] is the
    usage category of that operation, and a non-empty declared [key_ops]
    contains the operation. *)
Theorem X10_served_only_if_permitted (self : JWK) (operation : string)
    (arg : option string) (r : opkey handle) :
  get_op_key self (Some operation) arg = Ok r ->
  exists usage,
    (usage, operation) ∈ (public_operations ++ private_operations)%list /\
    (forall use, _params self !! "use" = Some use ->
                 truthy use = true -> use = VStr usage) /\
    (forall ops, _params self !! "key_ops" = Some ops ->
                 truthy ops = true -> VStr operation ∈ as_list ops).
Proof.
  unfold get_op_key, get_op_key_with.
  repeat (case_bool_decide; simpl; try subst operation).
  all: try discriminate.
  all: match goal with
       | |- context [_check_constraints ?s ?u ?o] =>
           destruct (_check_constraints s u o) as [[]|] eqn:Hcheck;
           [|discriminate]; intros _; exists u;
           split; [|by apply check_constraints_Ok]
       end.
  all: apply list_elem_of_In; simpl; tauto.
Qed.

(** X11: any other operation name raises [NotImplementedError], whatever
    the key and whatever the checker would say; this includes [deriveKey]
    and [deriveBits] of the operations registry. *)
Theorem X11_other_operations (check : string -> string -> result unit)
    (self : JWK) (operation : string) (arg : option string) :
  operation ∉ ["sign"; "verify"; "encrypt"; "wrapKey"; "decrypt";
               "unwrapKey"] ->
  get_op_key_with check self (Some operation) arg
  = Raise NotImplementedError.
Proof.
  intros Hnot. unfold get_op_key_with.
  rewrite !bool_decide_eq_false_2; [done|..]; intros ->; apply Hnot;
    set_solver.
Qed.

End Dispatch.

(** ** Resolution of EC and RSA material *)

Section Resolution.

Context {handle : Type} {collaborators : Collaborators handle}.

(** X12: for an EC key on a registered curve whose coordinates decode, and
    a curve request that is absent, empty or equal to [crv], every public
    operation that passes the constraint check hands the provider the point
    [(x, y)] on that curve, and every private operation hands it the scalar
    [d] with that point; the result is the provider's. *)
Theorem X12_ec_resolution (self : JWK) (name : string) (c : curve)
    (arg : option string) (vx vy : Value) (x y : Z) :
  _params self !! "kty" = Some (VStr "EC") ->
  _key self !! "crv" = Some (VStr name) ->
  (name, c) ∈ [("P-256", SECP256R1); ("P-384", SECP384R1);
               ("P-521", SECP521R1)] ->
  (forall a, arg = Some a -> a = "" \/ a = name) ->
  _key self !! "x" = Some vx -> _decode_int vx = Ok x ->
  _key self !! "y" = Some vy -> _decode_int vy = Ok y ->
  (forall usage operation,
      (usage, operation) ∈ public_operations ->
      _check_constraints self usage operation = Ok tt ->
      get_op_key self (Some operation) arg
      = let* h := ec_public_key (mkEllipticCurvePublicNumbers x y c) in
        Ok (Handle h)) /\
  (forall usage operation vd d,
      (usage, operation) ∈ private_operations ->
      _check_constraints self usage operation = Ok tt ->
      _key self !! "d" = Some vd -> _decode_int vd = Ok d ->
      get_op_key self (Some operation) arg
      = let* h := ec_private_key
                    (mkEllipticCurvePrivateNumbers d
                       (mkEllipticCurvePublicNumbers x y c)) in
        Ok (Handle h)).
Proof.
  intros Hkty Hcrv Hin Harg Hx Hdx Hy Hdy.
  assert (get_curve self arg = Ok c) as Hcurve
    by (apply get_curve_Ok_iff; eauto 6).
  assert (_ec_pub self (_key self) arg
          = Ok (mkEllipticCurvePublicNumbers x y c)) as Hpub.
  { unfold _ec_pub, getitem. rewrite Hx, Hy. simpl.
    rewrite Hdx, Hdy. simpl. by rewrite Hcurve. }
  split.
  - intros usage operation Hop Hcheck. unfold get_op_key.
    rewrite (get_op_key_public _ _ _ _ _ Hop), Hcheck. simpl.
    unfold _get_public_key, getitem. rewrite Hkty. simpl.
    by rewrite Hpub.
  - intros usage operation vd d Hop Hcheck Hd Hdd. unfold get_op_key.
    rewrite (get_op_key_private _ _ _ _ _ Hop), Hcheck. simpl.
    unfold _get_private_key, _ec_pri, getitem. rewrite Hkty, Hd. simpl.
    rewrite Hdd. simpl. by rewrite Hpub.
Qed.

(** X13: for an RSA key whose [e] and [n] decode, every public operation
    that passes the constraint check hands the provider the pair [(e, n)],
    whatever other fields the key holds; when [p], [q], [d], [dp], [dq] and
    [qi] decode as well, every private operation hands it these six numbers
    in this order together with [(e, n)]. *)
Theorem X13_rsa_resolution (self : JWK) (arg : option string)
    (ve vn : Value) (e n : Z) :
  _params self !! "kty" = Some (VStr "RSA") ->
  _key self !! "e" = Some ve -> _decode_int ve = Ok e ->
  _key self !! "n" = Some vn -> _decode_int vn = Ok n ->
  (forall usage operation,
      (usage, operation) ∈ public_operations ->
      _check_constraints self usage operation = Ok tt ->
      get_op_key self (Some operation) arg
      = let* h := rsa_public_key (mkRSAPublicNumbers e n) in
        Ok (Handle h)) /\
  (forall usage operation vp vq vd vdp vdq vqi p q d dp dq qi,
      (usage, operation) ∈ private_operations ->
      _check_constraints self usage operation = Ok tt ->
      _key self !! "p" = Some vp -> _decode_int vp = Ok p ->
      _key self !! "q" = Some vq -> _decode_int vq = Ok q ->
      _key self !! "d" = Some vd -> _decode_int vd = Ok d ->
      _key self !! "dp" = Some vdp -> _decode_int vdp = Ok dp ->
      _key self !! "dq" = Some vdq -> _decode_int vdq = Ok dq ->
      _key self !! "qi" = Some vqi -> _decode_int vqi = Ok qi ->
      get_op_key self (Some operation) arg
      = let* h := rsa_private_key
                    (mkRSAPrivateNumbers p q d dp dq qi
                       (mkRSAPublicNumbers e n)) in
        Ok (Handle h)).
Proof.
  intros Hkty He Hde Hn Hdn.
  assert (_rsa_pub (_key self) = Ok (mkRSAPublicNumbers e n)) as Hpub.
  { unfold _rsa_pub, getitem. rewrite He, Hn. simpl.
    by rewrite Hde, Hdn. }
  split.
  - intros usage operation Hop Hcheck. unfold get_op_key.
    rewrite (get_op_key_public _ _ _ _ _ Hop), Hcheck. simpl.
    unfold _get_public_key, getitem. rewrite Hkty. simpl.
    by rewrite Hpub.
  - intros usage operation vp vq vd vdp vdq vqi p q d dp dq qi Hop Hcheck
      Hp Hdp Hq Hdq Hd Hdd Hdp' Hddp Hdq' Hddq Hqi Hdqi.
    unfold get_op_key.
    rewrite (get_op_key_private _ _ _ _ _ Hop), Hcheck. simpl.
    unfold _get_private_key, _rsa_pri, getitem. rewrite Hkty. simpl.
    rewrite Hp, Hq, Hd, Hdp', Hdq', Hqi. simpl.
    rewrite Hdp, Hdq, Hdd, Hddp, Hddq, Hdqi. simpl. by rewrite Hpub.
Qed.

(** ** More on integer decoding *)

Lemma be_value_bound (bs : list byte) :
  (be_value bs < 256 ^ Z.of_nat (List.length bs))%Z.
Proof.
  induction bs as [|b bs IH]; cbn [be_value List.length]; [simpl; lia|].
  rewrite Nat2Z.inj_succ, Z.pow_succ_r by lia.
  pose proof (Byte.to_N_bounded b). pose proof (be_value_nonneg bs).
  nia.
Qed.

Lemma decode_int_Ok (n : Value) (v : Z) :
  _decode_int n = Ok v ->
  exists bs, base64url_decode n = Ok bs /\ bs <> [] /\ v = be_value bs.
Proof.
  unfold _decode_int. destruct (base64url_decode n) as [bs|]; [|done].
  simpl. destruct bs as [|b bs]; [done|].
  unfold int16. cbn [hexlify].
  change (String ?c1 (String ?c2 (hexlify bs))) with (hexlify (b :: bs)).
  rewrite int16_digits_hexlify. intros [= <-].
  exists (b :: bs). split; [done|]. split; [done | f_equal].
Qed.

Lemma decode_int_nonempty (n : Value) (bs : list byte) :
  base64url_decode n = Ok bs -> bs <> [] ->
  _decode_int n = Ok (be_value bs).
Proof.
  intros Hdec Hne. unfold _decode_int. rewrite Hdec. cbn [bind].
  destruct bs as [|b bs]; [done|].
  unfold int16. cbn [hexlify].
  change (String ?c1 (String ?c2 (hexlify bs))) with (hexlify (b :: bs)).
  rewrite int16_digits_hexlify. f_equal.
Qed.

(** X14: [_decode_int] returns an integer only when the field decodes to a
    non-empty octet string, and the integer is then non-negative and below
    256 to the power of the number of octets. *)
Theorem X14_decode_int_range (n : Value) (v : Z) :
  _decode_int n = Ok v ->
  exists bs,
    base64url_decode n = Ok bs /\ bs <> [] /\
    (0 <= v < 256 ^ Z.of_nat (List.length bs))%Z.
Proof.
  intros H. apply decode_int_Ok in H as (bs & Hbs & Hne & ->).
  exists bs. split; [done|]. split; [done|].
  split; [apply be_value_nonneg | apply be_value_bound].
Qed.

Lemma be_value_inj (bs1 bs2 : list byte) :
  List.length bs1 = List.length bs2 ->
  be_value bs1 = be_value bs2 -> bs1 = bs2.
Proof.
  revert bs2. induction bs1 as [|b1 bs1 IH]; intros [|b2 bs2] Hlen Hv;
    try done.
  cbn [be_value List.length] in *. injection Hlen as Hlen. rewrite Hlen in Hv.
  pose proof (be_value_nonneg bs1). pose proof (be_value_nonneg bs2).
  pose proof (be_value_bound bs1) as Hb1. rewrite Hlen in Hb1.
  pose proof (be_value_bound bs2) as Hb2.
  set (w := (256 ^ Z.of_nat (List.length bs2))%Z) in *.
  assert (Z.of_N (Byte.to_N b1) = Z.of_N (Byte.to_N b2)) as Hb by nia.
  assert (b1 = b2) as ->.
  { apply N2Z.inj in Hb.
    pose proof (Byte.of_to_N b1) as H1. rewrite Hb, Byte.of_to_N in H1.
    by injection H1. }
  f_equal. apply IH; [done | lia].
Qed.

(** X15: two fields that decode to octet strings of the same length yield
    the same integer only if the octet strings are equal. *)
Theorem X15_decode_int_injective (n1 n2 : Value) (bs1 bs2 : list byte)
    (v : Z) :
  base64url_decode n1 = Ok bs1 ->
  base64url_decode n2 = Ok bs2 ->
  List.length bs1 = List.length bs2 ->
  _decode_int n1 = Ok v ->
  _decode_int n2 = Ok v ->
  bs1 = bs2.
Proof.
  intros H1 H2 Hlen Hv1 Hv2.
  apply decode_int_Ok in Hv1 as (bs1' & H1' & _ & ->).
  apply decode_int_Ok in Hv2 as (bs2' & H2' & _ & Hv).
  rewrite H1 in H1'. rewrite H2 in H2'.
  injection H1' as <-. injection H2' as <-.
  by apply be_value_inj.
Qed.

(** X16: leading zero octets do not change the integer: a field that
    decodes to a zero octet followed by a non-empty octet string yields the
    same integer as a field that decodes to that octet string alone. *)
Theorem X16_decode_int_leading_zero (n n' : Value) (bs : list byte) :
  base64url_decode n = Ok (x00 :: bs) ->
  base64url_decode n' = Ok bs ->
  bs <> [] ->
  _decode_int n = _decode_int n'.
Proof.
  intros H H' Hne.
  rewrite (decode_int_nonempty n (x00 :: bs) H) by done.
  rewrite (decode_int_nonempty n' bs H') by done.
  reflexivity.
Qed.

End Resolution.

(** ** The key collection *)

Lemma find_key_Some (kid : option Value) (members : list (nat * JWK))
    (id : nat) (jwk : JWK) :
  find_key kid members = Some (id, jwk) ->
  (id, jwk) ∈ members /\ key_id jwk = kid.
Proof.
  induction members as [|[id' jwk'] members IH]; simpl; [done|].
  case_decide as Hk.
  - intros [= -> ->]. split; [left | done].
  - intros H. apply IH in H as [Hin Hkid]. split; [by right | done].
Qed.

Lemma find_key_None (kid : option Value) (members : list (nat * JWK)) :
  find_key kid members = None <->
  forall id jwk, (id, jwk) ∈ members -> key_id jwk <> kid.
Proof.
  induction members as [|[id' jwk'] members IH]; simpl.
  - split; [|done]. intros _ id jwk Hin. by apply elem_of_nil in Hin.
  - case_decide as Hk.
    + split; [done|]. intros H. destruct (H id' jwk'); [left | done].
    + rewrite IH. split.
      * intros H id jwk [[= -> ->]|Hin]%elem_of_cons; [done | by eapply H].
      * intros H id jwk Hin. apply (H id). by right.
Qed.

Section KeySetProperties.

Context {json : Type}.
Variable iteration : gmap nat JWK -> list (nat * JWK).
Variable json_encode : gmap string Value -> json.
Variable json_decode : json -> result (gmap string Value).
Variable json_encode_keys : list (gmap string Value) -> json.

Hypothesis iteration_members : forall s, iteration s ≡ₚ map_to_list s.
Hypothesis json_decode_encode : forall d, json_decode (json_encode d) = Ok d.

Lemma elem_of_iteration (s : gmap nat JWK) (id : nat) (jwk : JWK) :
  (id, jwk) ∈ iteration s <-> s !! id = Some jwk.
Proof. by rewrite iteration_members, elem_of_map_to_list. Qed.

(** X17: whatever the iteration order of the set, [get_key] returns a
    member whose [key_id] equals the requested identifier, and returns
    [None] only when no member has it; with [None] as the identifier it
    looks for a member without [kid]. *)
Theorem X17_get_key (s : gmap nat JWK) (kid : option Value) :
  match JWKSet_get_key iteration s kid with
  | Some (id, jwk) => s !! id = Some jwk /\ key_id jwk = kid
  | None => forall id jwk, s !! id = Some jwk -> key_id jwk <> kid
  end.
Proof.
  unfold JWKSet_get_key.
  destruct (find_key kid (iteration s)) as [[id jwk]|] eqn:Hfind.
  - apply find_key_Some in Hfind as [Hin Hkid].
    by apply elem_of_iteration in Hin.
  - intros id jwk Hin. eapply find_key_None; [done|].
    by apply elem_of_iteration.
Qed.

(** X18: adding a key object keeps every member, makes the object a member,
    and [get_key] with the object's [key_id] then finds a member with that
    [key_id]; an object of another class is refused with [TypeError]. *)
Theorem X18_add_then_get_key (s s' : gmap nat JWK) (id : nat) (jwk : JWK) :
  (forall jwk', s !! id = Some jwk' -> jwk' = jwk) ->
  JWKSet_add s (JWKObject id jwk) = Ok s' ->
  s' !! id = Some jwk /\
  (forall id0 jwk0, s !! id0 = Some jwk0 -> s' !! id0 = Some jwk0) /\
  (exists id1 jwk1,
      JWKSet_get_key iteration s' (key_id jwk) = Some (id1, jwk1) /\
      s' !! id1 = Some jwk1 /\ key_id jwk1 = key_id jwk) /\
  JWKSet_add s OtherObject = Raise TypeError.
Proof.
  intros Hsame [= <-].
  assert (match s !! id with
          | Some _ => s
          | None => <[id := jwk]> s
          end !! id = Some jwk) as Hid.
  { destruct (s !! id) as [jwk'|] eqn:Hs;
      [by rewrite Hs, (Hsame jwk') | by rewrite lookup_insert_eq]. }
  split; [done|]. split; [|split; [|done]].
  - intros id0 jwk0 H0. destruct (s !! id) as [jwk'|] eqn:Hs; [done|].
    rewrite lookup_insert_ne; [done | congruence].
  - unfold JWKSet_get_key.
    destruct (find_key (key_id jwk) (iteration _)) as [[id1 jwk1]|] eqn:Hfind.
    + apply find_key_Some in Hfind as [Hin Hkid].
      apply elem_of_iteration in Hin. eauto.
    + exfalso. eapply find_key_None; [exact Hfind | | reflexivity].
      apply elem_of_iteration, Hid.
Qed.

Lemma export_keys_Ok (members : list (nat * JWK)) :
  export_keys json_encode json_decode members
  = Ok (map (fun m =>
               dict_update
                 (dict_update (dict_update ∅ (_params m.2)) (_key m.2))
                 (_unknown m.2))
            members).
Proof.
  induction members as [|[id jwk] members IH]; simpl; [done|].
  unfold export at 1. rewrite json_decode_encode. simpl. by rewrite IH.
Qed.

(** X19: with a codec that decodes what it encodes, [JWKSet.export] raises
    nothing and encodes one document for each member, in iteration order:
    the member's metadata, overridden by its material, overridden by its
    extension field. *)
Theorem X19_set_export (s : gmap nat JWK) :
  exists keys,
    JWKSet_export iteration json_encode json_decode json_encode_keys s
    = Ok (json_encode_keys keys) /\
    List.length keys = size s /\
    forall i,
      keys !! i
      = (fun m => _unknown m.2 ∪ (_key m.2 ∪ _params m.2)) <$> iteration s !! i.
Proof.
  unfold JWKSet_export. rewrite export_keys_Ok. eexists.
  split; [reflexivity|]. split.
  - rewrite length_map, iteration_members. apply length_map_to_list.
  - intros i. rewrite <- list_lookup_fmap. f_equal.
    clear. induction (iteration s) as [|m l IH]; simpl; [done|].
    f_equal; [|done]. unfold dict_update.
    by rewrite (right_id_L ∅ (∪)).
Qed.

End KeySetProperties.

(** ** The further properties at example keys *)

Import Samples.

Lemma oct_kid_key_init : JWK_init oct_kid_fields = Ok oct_kid_key.
Proof. vm_compute. reflexivity. Qed.

Lemma ec_p256_key_init : JWK_init ec_p256_fields = Ok ec_p256_key.
Proof. vm_compute. reflexivity. Qed.

Lemma rsa_private_key_init : JWK_init rsa_private_fields = Ok rsa_private_key.
Proof. vm_compute. reflexivity. Qed.

Lemma oct_extension_fields_NoDup : NoDup (keys oct_extension_fields).
Proof. apply (bool_decide_unpack _). vm_compute. exact I. Qed.


Lemma X2_construction_order_independent_witness :
  NoDup (keys oct_extension_fields) /\
  oct_extension_fields ≡ₚ reverse oct_extension_fields /\
  JWK_init (reverse oct_extension_fields) = Ok oct_extension_key.
Proof.
  split; [exact oct_extension_fields_NoDup|].
  split; [symmetry; apply reverse_Permutation|].
  apply (X2_construction_order_independent oct_extension_fields).
  - exact oct_extension_fields_NoDup.
  - symmetry. apply reverse_Permutation.
  - exact oct_extension_key_init.
Defined.

Lemma X3_key_ops_invariant_witness :
  JWK_init oct_enc_fields = Ok oct_enc_key /\
  NoDup ["encrypt"] /\
  (forall op, op ∈ sigl -> value_contains op (VList ["encrypt"]) = false).
Proof.
  split; [exact oct_enc_key_init|].
  destruct (X3_key_ops_invariant oct_enc_fields oct_enc_key
              (VList ["encrypt"]) oct_enc_key_init eq_refl)
    as (Hnd & _ & Henc).
  split; [exact Hnd | exact (Henc eq_refl)].
Defined.

Lemma X4_key_type_key_id_witness :
  JWK_init oct_kid_fields = Ok oct_kid_key /\
  (exists kty, key_type oct_kid_key = Some (VStr kty) /\
               kty ∈ keys JWKTypesRegistry /\
               assoc_get "kty" oct_kid_fields = Some (VStr kty)) /\
  key_id oct_kid_key = Some (VStr "key-1").
Proof.
  split; [exact oct_kid_key_init|].
  exact (X4_key_type_key_id oct_kid_fields oct_kid_key oct_kid_key_init).
Defined.

Lemma X5_material_and_extension_witness :
  NoDup (keys oct_extension_fields) /\
  JWK_init oct_extension_fields = Ok oct_extension_key /\
  (forall x y, is_Some (_unknown oct_extension_key !! x) ->
               is_Some (_unknown oct_extension_key !! y) -> x = y).
Proof.
  split; [exact oct_extension_fields_NoDup|].
  split; [exact oct_extension_key_init|].
  destruct (X5_material_and_extension oct_extension_fields oct_extension_key
              oct_extension_fields_NoDup oct_extension_key_init)
    as (kty & values & _ & _ & _ & _ & Hone).
  exact Hone.
Defined.


Lemma X9_usage_gate_witness :
  _params oct_enc_key !! "use" = Some (VStr "enc") /\
  get_op_key (collaborators := Concrete.collaborators)
    oct_enc_key (Some "sign") None
  = Raise (InvalidJWKUsage "sig" (VStr "enc")).
Proof.
  split; [reflexivity|].
  apply (X9_usage_gate (collaborators := Concrete.collaborators)
           oct_enc_key (VStr "enc") "sig" "sign" None).
  - apply list_elem_of_In. simpl. tauto.
  - reflexivity.
  - reflexivity.
  - discriminate.
Defined.

Lemma X10_served_only_if_permitted_witness :
  get_op_key (collaborators := Concrete.collaborators)
    oct_enc_key (Some "encrypt") None = Ok (Raw (VStr "AQAB")) /\
  exists usage,
    (usage, "encrypt") ∈ (public_operations ++ private_operations)%list /\
    (forall use, _params oct_enc_key !! "use" = Some use ->
                 truthy use = true -> use = VStr usage) /\
    (forall ops, _params oct_enc_key !! "key_ops" = Some ops ->
                 truthy ops = true -> VStr "encrypt" ∈ as_list ops).
Proof.
  split; [reflexivity|].
  exact (X10_served_only_if_permitted
           (collaborators := Concrete.collaborators)
           oct_enc_key "encrypt" None (Raw (VStr "AQAB")) eq_refl).
Defined.

Lemma X11_other_operations_witness :
  ("deriveKey" ∈ keys JWKOperationsRegistry) /\
  get_op_key (collaborators := Concrete.collaborators)
    oct_key (Some "deriveKey") None = Raise NotImplementedError.
Proof.
  split; [apply list_elem_of_In; simpl; tauto|].
  apply (X11_other_operations (collaborators := Concrete.collaborators)
           (_check_constraints oct_key) oct_key "deriveKey" None).
  intros Hin. apply list_elem_of_In in Hin. simpl in Hin.
  intuition discriminate.
Defined.

Lemma X12_ec_resolution_witness :
  JWK_init ec_p256_fields = Ok ec_p256_key /\
  get_op_key (collaborators := Concrete.collaborators)
    ec_p256_key (Some "verify") (Some "P-256")
  = Ok (Handle (Concrete.ECPublicKey
                  (mkEllipticCurvePublicNumbers 65537 65539 SECP256R1))) /\
  get_op_key (collaborators := Concrete.collaborators)
    ec_p256_key (Some "sign") (Some "P-256")
  = Ok (Handle (Concrete.ECPrivateKey
                  (mkEllipticCurvePrivateNumbers 7
                     (mkEllipticCurvePublicNumbers 65537 65539 SECP256R1)))).
Proof.
  split; [exact ec_p256_key_init|].
  destruct (X12_ec_resolution (collaborators := Concrete.collaborators)
              ec_p256_key "P-256" SECP256R1 (Some "P-256")
              (VStr "AQAB") (VStr "AQAD") 65537%Z 65539%Z
              eq_refl eq_refl) as [Hpub Hpri]; try reflexivity.
  - apply list_elem_of_In. simpl. tauto.
  - intros a [= <-]. by right.
  - split.
    + apply (Hpub "sig" "verify"); [|reflexivity].
      apply list_elem_of_In. simpl. tauto.
    + apply (Hpri "sig" "sign" (VStr "Bw") 7%Z); try reflexivity.
      apply list_elem_of_In. simpl. tauto.
Defined.

Lemma X13_rsa_resolution_witness :
  JWK_init rsa_private_fields = Ok rsa_private_key /\
  get_op_key (collaborators := Concrete.collaborators)
    rsa_private_key (Some "encrypt") None
  = Ok (Handle (Concrete.RSAPublicKey (mkRSAPublicNumbers 65537 65539))) /\
  get_op_key (collaborators := Concrete.collaborators)
    rsa_private_key (Some "decrypt") None
  = Ok (Handle (Concrete.RSAPrivateKey
                  (mkRSAPrivateNumbers 11 13 7 17 19 23
                     (mkRSAPublicNumbers 65537 65539)))).
Proof.
  split; [exact rsa_private_key_init|].
  destruct (X13_rsa_resolution (collaborators := Concrete.collaborators)
              rsa_private_key None (VStr "AQAB") (VStr "AQAD")
              65537%Z 65539%Z eq_refl eq_refl eq_refl eq_refl eq_refl)
    as [Hpub Hpri].
  split.
  - apply (Hpub "enc" "encrypt"); [|reflexivity].
    apply list_elem_of_In. simpl. tauto.
  - apply (Hpri "enc" "decrypt" (VStr "Cw") (VStr "DQ") (VStr "Bw")
             (VStr "EQ") (VStr "Ew") (VStr "Fw") 11%Z 13%Z 7%Z 17%Z 19%Z
             23%Z); try reflexivity.
    apply list_elem_of_In. simpl. tauto.
Defined.

Lemma X14_decode_int_range_witness :
  _decode_int (collaborators := Concrete.collaborators) (VStr "AQAB")
  = Ok 65537%Z /\
  exists bs,
    base64url_decode (VStr "AQAB") = Ok bs /\ bs <> [] /\
    (0 <= 65537 < 256 ^ Z.of_nat (List.length bs))%Z.
Proof.
  split; [reflexivity|].
  exact (X14_decode_int_range (collaborators := Concrete.collaborators)
           (VStr "AQAB") 65537%Z eq_refl).
Defined.

Lemma X15_decode_int_injective_witness :
  base64url_decode (VStr "AQAB") = Ok [x01; x00; x01] /\
  _decode_int (collaborators := Concrete.collaborators) (VStr "AQAB")
  = Ok 65537%Z /\
  [x01; x00; x01] = [x01; x00; x01].
Proof.
  split; [reflexivity|]. split; [reflexivity|].
  exact (X15_decode_int_injective (collaborators := Concrete.collaborators)
           (VStr "AQAB") (VStr "AQAB") [x01; x00; x01] [x01; x00; x01]
           65537%Z eq_refl eq_refl eq_refl eq_refl eq_refl).
Defined.

Lemma X16_decode_int_leading_zero_witness :
  base64url_decode (VStr "AAEAAQ") = Ok [x00; x01; x00; x01] /\
  base64url_decode (VStr "AQAB") = Ok [x01; x00; x01] /\
  _decode_int (collaborators := Concrete.collaborators) (VStr "AAEAAQ")
  = _decode_int (collaborators := Concrete.collaborators) (VStr "AQAB").
Proof.
  split; [reflexivity|]. split; [reflexivity|].
  apply (X16_decode_int_leading_zero
           (collaborators := Concrete.collaborators)
           (VStr "AAEAAQ") (VStr "AQAB") [x01; x00; x01]);
    [reflexivity | reflexivity | discriminate].
Defined.

Lemma X17_get_key_witness :
  JWKSet_get_key map_to_list two_keys (Some (VStr "key-1"))
  = Some (1, oct_kid_key) /\
  (two_keys !! 1 = Some oct_kid_key /\
   key_id oct_kid_key = Some (VStr "key-1")) /\
  JWKSet_get_key map_to_list (∅ : gmap nat JWK) (Some (VStr "key-1")) = None.
Proof.
  split; [vm_compute; reflexivity|].
  split; [|reflexivity].
  exact (X17_get_key map_to_list (fun s => reflexivity _) two_keys
           (Some (VStr "key-1"))).
Defined.

Lemma X18_add_then_get_key_witness :
  JWKSet_add {[ 1 := oct_kid_key ]} (JWKObject 2 rsa_private_key)
  = Ok two_keys /\
  two_keys !! 2 = Some rsa_private_key /\
  (forall id0 jwk0,
      ({[ 1 := oct_kid_key ]} : gmap nat JWK) !! id0 = Some jwk0 ->
      two_keys !! id0 = Some jwk0) /\
  (exists id1 jwk1,
      JWKSet_get_key map_to_list two_keys (key_id rsa_private_key)
      = Some (id1, jwk1) /\
      two_keys !! id1 = Some jwk1 /\
      key_id jwk1 = key_id rsa_private_key) /\
  JWKSet_add {[ 1 := oct_kid_key ]} OtherObject = Raise TypeError.
Proof.
  assert (JWKSet_add {[ 1 := oct_kid_key ]} (JWKObject 2 rsa_private_key)
          = Ok two_keys) as Hadd by reflexivity.
  split; [exact Hadd|].
  apply (X18_add_then_get_key map_to_list (fun s => reflexivity _)
           {[ 1 := oct_kid_key ]} two_keys 2 rsa_private_key);
    [|exact Hadd].
  intros jwk' Hin. discriminate Hin.
Defined.

Lemma X19_set_export_witness :
  exists keys : list (gmap string Value),
    JWKSet_export map_to_list inl
      (fun j : gmap string Value + list (gmap string Value) =>
         match j with inl d => Ok d | inr _ => Raise ValueError end)
      inr two_keys
    = Ok (inr keys) /\
    List.length keys = size two_keys /\
    forall i,
      keys !! i
      = (fun m : nat * JWK => _unknown m.2 ∪ (_key m.2 ∪ _params m.2))
          <$> map_to_list two_keys !! i.
Proof.
  exact (X19_set_export map_to_list inl
           (fun j : gmap string Value + list (gmap string Value) =>
              match j with inl d => Ok d | inr _ => Raise ValueError end)
           inr (fun s => reflexivity _) (fun d => eq_refl) two_keys).
Defined.
